(** * TableExtractor: a shallow embedding of [modules/table_extractor.py]

    The extractor turns recognised text or table grids into records with
    three fields (article, name, quantity).  This file embeds
    [TableExtractor] and the part of Python's [str] and [re] that it uses,
    and proves properties of the embedded functions.

    Python strings are sequences of Unicode code points.  What a code point
    above U+007F is (white space, decimal digit, ...) is read from the
    interpreter's Unicode database; the embedding takes that database as a
    parameter ([UnicodeData]) and fixes the ASCII range itself. *)

From Stdlib Require Import List NArith ZArith Bool Ascii String Lia.
Import ListNotations.
Local Open Scope string_scope.
Local Open Scope list_scope.
Local Open Scope N_scope.

(** ** Code points and string literals *)

Definition char := N.
Definition str := list char.

Fixpoint bytes_of_string (s : string) : list N :=
  match s with
  | EmptyString => []
  | String a s' => N_of_ascii a :: bytes_of_string s'
  end.

(** UTF-8 decoding: [pending] continuation bytes are still expected for the
    code point accumulated in [acc]. *)
Fixpoint utf8_decode (pending : nat) (acc : N) (bs : list N) : str :=
  match bs with
  | [] => []
  | b :: bs' =>
    match pending with
    | O =>
      if b <? 128 then b :: utf8_decode 0 0 bs'
      else if b <? 224 then utf8_decode 1 (b - 192) bs'
      else if b <? 240 then utf8_decode 2 (b - 224) bs'
      else utf8_decode 3 (b - 240) bs'
    | S O => (acc * 64 + b mod 64) :: utf8_decode 0 0 bs'
    | S p => utf8_decode p (acc * 64 + b mod 64) bs'
    end
  end.

(** [u "..."] is the Python string literal ['...']. *)
Definition u (s : string) : str := utf8_decode 0 0 (bytes_of_string s).

(** Python truthiness of a string: [if s]. *)
Definition truthy (s : str) : bool :=
  match s with [] => false | _ :: _ => true end.

Definition between (lo hi c : N) : bool := (lo <=? c) && (c <=? hi).

(** ** Exceptions *)

(** Indexing a list raises [IndexError] out of range. *)
Inductive exn := IndexError.

Inductive result (A : Type) :=
| Ok (a : A)
| Raise (e : exn).

Arguments Ok {A} a.
Arguments Raise {A} e.

Definition bind {A B : Type} (r : result A) (k : A -> result B) : result B :=
  match r with
  | Ok a => k a
  | Raise e => Raise e
  end.

Notation "x <- r ;; k" := (bind r (fun x => k))
  (at level 61, r at next level, right associativity).

(** [l[i]]: a negative index counts from the end. *)
Definition py_index {A : Type} (l : list A) (i : Z) : result A :=
  let n := Z.of_nat (List.length l) in
  let j := if (i <? 0)%Z then (i + n)%Z else i in
  if (j <? 0)%Z then Raise IndexError
  else
    match nth_error l (Z.to_nat j) with
    | Some a => Ok a
    | None => Raise IndexError
    end.

(** [range(a, b)] *)
Definition py_range (a b : Z) : list Z :=
  map (fun k => (a + Z.of_nat k)%Z) (seq 0 (Z.to_nat (b - a))).

(** A [for] loop whose body may raise. *)
Fixpoint for_each {A S : Type} (body : S -> A -> result S) (l : list A)
    (s : S) : result S :=
  match l with
  | [] => Ok s
  | a :: l' => s' <- body s a ;; for_each body l' s'
  end.

(** ** The Unicode database *)

(** The fields classify code points from U+0080 on; the laws are facts of
    the Unicode character database that the proofs below rely on. *)
Class UnicodeData := {
  (** [str.isspace], [\s] *)
  uc_space : char -> bool;
  (** [str.isdecimal], [\d] *)
  uc_decimal : char -> bool;
  (** [str.isdigit] *)
  uc_digit : char -> bool;
  (** [str.isalnum]; [\w] is [isalnum] or ['_'] *)
  uc_alnum : char -> bool;
  (** full lower-case mapping of a code point between the text before it
      (reversed) and the text after it; the context matters to U+03A3 only *)
  uc_lower : str -> char -> str -> str;
  (** [uc_fold p c]: under [re.IGNORECASE] the text character [c], different
      from [p], matches the pattern character [p] *)
  uc_fold : char -> char -> bool;
  uc_decimal_not_space :
    forall c, uc_decimal c = true -> uc_space c = false;
  uc_decimal_alnum :
    forall c, uc_decimal c = true -> uc_alnum c = true;
  (** a basic Cyrillic small letter and its case variants are letters *)
  uc_fold_cyrillic :
    forall p c, between 1072 1103 p = true ->
      c = p \/ uc_fold p c = true ->
      128 <= c /\ uc_space c = false;
  (** only letters lower-case to a basic Cyrillic small letter *)
  uc_lower_cyrillic :
    forall before c after x,
      In x (uc_lower before c after) -> between 1072 1103 x = true ->
      uc_lower before c after = [x] /\
      uc_space c = false /\ uc_decimal c = false
}.

Section Extractor.

Context {U : UnicodeData}.

(** ** Character classes *)

Definition isspace (c : char) : bool :=
  if c <? 128 then between 9 13 c || between 28 32 c else uc_space c.

Definition isdecimal (c : char) : bool :=
  if c <? 128 then between 48 57 c else uc_decimal c.

Definition isdigit_char (c : char) : bool :=
  if c <? 128 then between 48 57 c else uc_digit c.

Definition upper_az (c : char) : bool := between 65 90 c.
Definition lower_az (c : char) : bool := between 97 122 c.
Definition alpha_az (c : char) : bool := upper_az c || lower_az c.
Definition alnum_az (c : char) : bool := alpha_az c || between 48 57 c.

Definition isalnum (c : char) : bool :=
  if c <? 128 then alnum_az c else uc_alnum c.

(** [\w] *)
Definition isword (c : char) : bool := isalnum c || (c =? 95).

(** [[-_]] *)
Definition dash_us (c : char) : bool := (c =? 45) || (c =? 95).

(** a literal pattern character under [re.IGNORECASE]: the character
    itself, its other case in ASCII, and what the database adds *)
Definition lit_i (p c : char) : bool :=
  (c =? p) ||
  (upper_az p && (c =? p + 32)) || (lower_az p && (c =? p - 32)) ||
  uc_fold p c.

(** a literal pattern character without flags *)
Definition lit (p c : char) : bool := c =? p.

(** a set of literals under [re.IGNORECASE] *)
Definition set_i (ps : str) (c : char) : bool := existsb (fun p => lit_i p c) ps.

(** ** [str] methods *)

Definition len (s : str) : Z := Z.of_nat (List.length s).

Fixpoint lstrip_by (f : char -> bool) (s : str) : str :=
  match s with
  | c :: s' => if f c then lstrip_by f s' else s
  | [] => []
  end.

Definition rstrip_by (f : char -> bool) (s : str) : str :=
  rev (lstrip_by f (rev s)).

Definition strip_by (f : char -> bool) (s : str) : str :=
  rstrip_by f (lstrip_by f s).

(** [s.strip()] *)
Definition strip (s : str) : str := strip_by isspace s.

(** [s.strip(chars)] *)
Definition strip_chars (chars : str) (s : str) : str :=
  strip_by (fun c => existsb (N.eqb c) chars) s.

(** [s.split('\n')] *)
Fixpoint split_lines_acc (cur : str) (s : str) : list str :=
  match s with
  | [] => [rev cur]
  | c :: s' =>
    if c =? 10 then rev cur :: split_lines_acc [] s'
    else split_lines_acc (c :: cur) s'
  end.

Definition split_lines (s : str) : list str := split_lines_acc [] s.

Definition lower_char (before : str) (c : char) (after : str) : str :=
  if c <? 128 then [if upper_az c then c + 32 else c]
  else uc_lower before c after.

Fixpoint lower_from (before : str) (s : str) : str :=
  match s with
  | [] => []
  | c :: s' => lower_char before c s' ++ lower_from (c :: before) s'
  end.

(** [s.lower()] *)
Definition lower (s : str) : str := lower_from [] s.

(** [s.startswith(p)], returning what follows the prefix *)
Fixpoint strip_prefix (p s : str) : option str :=
  match p, s with
  | [], _ => Some s
  | a :: p', b :: s' => if a =? b then strip_prefix p' s' else None
  | _ :: _, [] => None
  end.

(** [sub in s] *)
Fixpoint contains (sub s : str) : bool :=
  match strip_prefix sub s with
  | Some _ => true
  | None => match s with [] => false | _ :: s' => contains sub s' end
  end.

(** [s.replace(old, '')] for a non-empty [old]: occurrences are removed
    from left to right without overlap; [skip] characters of the occurrence
    found last are still to be dropped. *)
Fixpoint remove_all_skip (old : str) (skip : nat) (s : str) : str :=
  match s with
  | [] => []
  | c :: s' =>
    match skip with
    | S k => remove_all_skip old k s'
    | O =>
      match strip_prefix old s with
      | Some _ => remove_all_skip old (pred (List.length old)) s'
      | None => c :: remove_all_skip old 0 s'
      end
    end
  end.

Definition remove_all (old s : str) : str :=
  match old with
  | [] => s
  | _ :: _ => remove_all_skip old 0 s
  end.

(** [s.isdigit()] *)
Definition isdigit (s : str) : bool := truthy s && forallb isdigit_char s.

(** [' '.join(parts)] *)
Fixpoint join_sp (parts : list str) : str :=
  match parts with
  | [] => []
  | [p] => p
  | p :: ps => p ++ 32 :: join_sp ps
  end.

(** ** The part of [re] the extractor uses

    Every pattern of the extractor is a sequence of single-character
    classes under a greedy quantifier, and of the assertions [^], [$] and
    [\b].  [Cls f lo hi] is the class [f] repeated [lo] to [hi] times
    ([None]: no upper bound). *)

Inductive item :=
| Cls (f : char -> bool) (lo : nat) (hi : option nat)
| Bos
| Eos
| WordB.

Definition pattern := list item.

Definition one (f : char -> bool) : item := Cls f 1 (Some 1%nat).
Definition opt (f : char -> bool) : item := Cls f 0 (Some 1%nat).
Definition star (f : char -> bool) : item := Cls f 0 None.
Definition plus (f : char -> bool) : item := Cls f 1 None.
Definition rng (f : char -> bool) (lo hi : nat) : item := Cls f lo (Some hi).

Definition can_more (hi : option nat) : bool :=
  match hi with Some O => false | _ => true end.

Definition dec_hi (hi : option nat) : option nat := option_map pred hi.

(** A greedy quantifier with backtracking: take one more character when
    the class and the bound allow and the rest of the pattern ([k]) then
    matches; otherwise stop here, if [lo] repetitions were made. *)
Fixpoint rep (f : char -> bool) (k : option char -> str -> option str)
    (lo : nat) (hi : option nat) (prev : option char) (s : str)
    : option str :=
  let stop := match lo with O => k prev s | S _ => None end in
  match s with
  | c :: s' =>
    if f c && can_more hi then
      match rep f k (pred lo) (dec_hi hi) (Some c) s' with
      | Some m => Some (c :: m)
      | None => stop
      end
    else stop
  | [] => stop
  end.

Definition opt_word (c : option char) : bool :=
  match c with Some x => isword x | None => false end.

(** [\b]: exactly one side of the position is a word character *)
Definition boundary (prev : option char) (s : str) : bool :=
  xorb (opt_word prev) (opt_word (hd_error s)).

(** [$] without [re.MULTILINE]: the end of the string, or just before a
    line feed that ends it *)
Definition at_end (s : str) : bool :=
  match s with
  | [] => true
  | [c] => c =? 10
  | _ => false
  end.

Definition at_start (prev : option char) : bool :=
  match prev with None => true | Some _ => false end.

(** [match_at p prev s]: the text [p] matches at the start of [s], where
    [prev] is the character before [s]. *)
Fixpoint match_at (p : pattern) : option char -> str -> option str :=
  match p with
  | [] => fun _ _ => Some []
  | Cls f lo hi :: p' => rep f (match_at p') lo hi
  | Bos :: p' => fun prev s => if at_start prev then match_at p' prev s else None
  | Eos :: p' => fun prev s => if at_end s then match_at p' prev s else None
  | WordB :: p' => fun prev s => if boundary prev s then match_at p' prev s else None
  end.

(** [re.search(p, s).group()]: the match at the leftmost position that
    has one. *)
Fixpoint search_from (p : pattern) (prev : option char) (s : str)
    : option str :=
  match match_at p prev s with
  | Some m => Some m
  | None =>
    match s with
    | [] => None
    | c :: s' => search_from p (Some c) s'
    end
  end.

Definition re_search (p : pattern) (s : str) : option str :=
  search_from p None s.

(** [re.sub(p, repl, s)]: [skip] characters of the match found last are
    still to be dropped.  An empty match puts [repl] before the character
    and moves on. *)
Fixpoint sub_from (p : pattern) (repl : str) (skip : nat)
    (prev : option char) (s : str) : str :=
  match skip with
  | S k =>
    match s with
    | [] => []
    | c :: s' => sub_from p repl k (Some c) s'
    end
  | O =>
    match match_at p prev s with
    | Some (_ :: m') =>
      repl ++
      match s with
      | [] => []
      | c :: s' => sub_from p repl (List.length m') (Some c) s'
      end
    | Some [] =>
      repl ++
      match s with
      | [] => []
      | c :: s' => c :: sub_from p repl 0 (Some c) s'
      end
    | None =>
      match s with
      | [] => []
      | c :: s' => c :: sub_from p repl 0 (Some c) s'
      end
    end
  end.

Definition re_sub (p : pattern) (repl s : str) : str :=
  sub_from p repl 0 None s.

(** ** [TableExtractor.__init__]: the pattern tables *)

(** the code point of a one-character literal *)
Definition ch (s : string) : char := hd 0 (u s).

(** a run of literal characters under [re.IGNORECASE] *)
Definition lits_i (s : string) : pattern := map (fun p => one (lit_i p)) (u s).

(** [\d+\s*], the head of every quantity pattern *)
Definition number_sp : pattern := [plus isdecimal; star isspace].

(** [self.patterns['article']] *)
Definition article_patterns : list pattern :=
  [ (* [A-Za-z0-9]{1,3}[-_]?\d{2,4}[-_]?[A-Za-z]{0,5} *)
    [rng alnum_az 1 3; opt dash_us; rng isdecimal 2 4; opt dash_us;
     rng alpha_az 0 5];
    (* [A-Z]\d{2,4} *)
    [one upper_az; rng isdecimal 2 4];
    (* \d{3,6}[-_][A-Za-z]{2,6} *)
    [rng isdecimal 3 6; one dash_us; rng alpha_az 2 6];
    (* [A-Za-z]{1,2}\d{3,4}[-_]?[A-Za-z]* *)
    [rng alpha_az 1 2; rng isdecimal 3 4; opt dash_us; star alpha_az] ].

(** [self.patterns['quantity']], compiled with [re.IGNORECASE] *)
Definition quantity_patterns : list pattern :=
  [ number_sp ++ lits_i "шт" ++ [opt (lit (ch "."))];
    number_sp ++ lits_i "штук";
    number_sp ++ lits_i "едини" ++ [opt (lit_i (ch "ц"))];
    number_sp ++ [one (set_i (u "мкгт")); one (lit_i (ch "г"))];
    number_sp ++ lits_i "л";
    number_sp ++ lits_i "кг";
    number_sp ++ lits_i "м" ].

(** [\b\d+\s*$] *)
Definition number_at_end : pattern := [WordB; plus isdecimal; star isspace; Eos].

(** [\s+] *)
Definition spaces : pattern := [plus isspace].

(** [^\d+\s*\.?\s*] *)
Definition row_number : pattern :=
  [Bos; plus isdecimal; star isspace; opt (lit (ch ".")); star isspace].

(** ** Records *)

(** The dictionary with the keys ['Артикул'], ['Наименование'] and
    ['Количество']. *)
Record record := mk_record {
  Article : str;
  Name : str;
  Quantity : str
}.

(** ** [_looks_like_product_line] *)

Definition product_keywords : list str :=
  map u ["болт"; "гайка"; "винт"; "шайба"; "дюбель"; "саморез"; "скоба";
         "крепеж"; "метиз"; "деталь"; "запчасть"; "изделие"].

(** [any(word in text for word in words)] *)
Definition any_in (words : list str) (text : str) : bool :=
  existsb (fun word => contains word text) words.

Definition looks_like_product_line (line : str) : bool :=
  let line_lower := lower line in
  any_in product_keywords line_lower.

(** ** [_extract_article] *)

Definition valid_candidate (candidate : str) : bool :=
  (3 <=? len candidate)%Z && negb (isdigit candidate).

Fixpoint extract_article_from (patterns : list pattern) (text : str) : str :=
  match patterns with
  | [] => []
  | p :: rest =>
    match re_search p text with
    | Some m =>
      let candidate := strip m in
      if valid_candidate candidate then candidate
      else extract_article_from rest text
    | None => extract_article_from rest text
    end
  end.

Definition extract_article (text : str) : str :=
  extract_article_from article_patterns text.

(** ** [_extract_quantity] *)

Fixpoint extract_quantity_from (patterns : list pattern) (text : str)
    : option str :=
  match patterns with
  | [] => None
  | p :: rest =>
    match re_search p text with
    | Some m => Some (strip m)
    | None => extract_quantity_from rest text
    end
  end.

Definition extract_quantity (text : str) : str :=
  match extract_quantity_from quantity_patterns text with
  | Some q => q
  | None =>
    match re_search number_at_end text with
    | Some m => strip m ++ u " шт"
    | None => []
    end
  end.

(** ** [_extract_name] *)

Definition extract_name (text article quantity : str) : str :=
  let name := text in
  let name := if truthy article then remove_all article name else name in
  let name := if truthy quantity then remove_all quantity name else name in
  let name := strip (re_sub spaces (u " ") name) in
  let name := strip_chars (u ".,;:-_|") name in
  let name := re_sub row_number [] name in
  if (len name <? 3)%Z then [] else name.

(** ** [extract_from_text] *)

Definition text_header_words : list str :=
  map u ["артикул"; "наименование"; "количество"; "товар"; "позиция"].

(** The body of the loop over the lines: [results] after one more line. *)
Definition text_step (results : list record) (line : str) : list record :=
  let line := strip line in
  if negb (truthy line) || (len line <? 3)%Z then results
  else if any_in text_header_words (lower line) then results
  else
    let article := extract_article line in
    let quantity := extract_quantity line in
    if truthy article || truthy quantity || looks_like_product_line line then
      let name := extract_name line article quantity in
      if truthy article || (truthy name && (2 <? len name)%Z) then
        results ++ [mk_record article name quantity]
      else results
    else results.

Definition extract_from_text (text : str) : list record :=
  let lines := split_lines text in
  fold_left text_step lines [].

(** ** Tables *)

(** A cell of a table is a string or [None]. *)
Definition cell := option str.
Definition row := list cell.
Definition table := list row.

Definition len_table (t : table) : Z := Z.of_nat (List.length t).

(** [if cell] *)
Definition cell_truthy (c : cell) : bool :=
  match c with Some s => truthy s | None => false end.

Definition len_row (r : row) : Z := Z.of_nat (List.length r).

(** [str(cell)] *)
Definition str_of_cell (c : cell) : str :=
  match c with Some s => s | None => u "None" end.

(** [cell or ''] *)
Definition cell_or_empty (c : cell) : str :=
  match c with Some s => s | None => [] end.

(** [' '.join(str(cell) for cell in row if cell)] *)
Definition row_text (r : row) : str :=
  join_sp (map str_of_cell (filter cell_truthy r)).

(** ** [_find_header_row] *)

Definition table_header_words : list str :=
  map u ["артикул"; "наименование"; "количество"; "код"; "название";
         "кол-во"; "товар"].

(** [sum(1 for keyword in keywords if keyword in row_text)] *)
Definition count_in (keywords : list str) (text : str) : Z :=
  Z.of_nat (List.length (filter (fun keyword => contains keyword text) keywords)).

(** [' '.join(str(cell).lower() for cell in row if cell)] *)
Definition header_text (r : row) : str :=
  join_sp (map (fun c => lower (str_of_cell c)) (filter cell_truthy r)).

(** The loop over [enumerate(table)], from index [i] on. *)
Fixpoint find_header_row_from (i : Z) (rows : table) : Z :=
  match rows with
  | [] => 0%Z
  | r :: rest =>
    match r with
    | [] => find_header_row_from (i + 1)%Z rest
    | _ :: _ =>
      let matches := count_in table_header_words (header_text r) in
      if (2 <=? matches)%Z then i
      else find_header_row_from (i + 1)%Z rest
    end
  end.

Definition find_header_row (t : table) : Z := find_header_row_from 0%Z t.

(** ** [_find_column_indices] *)

Record indices := mk_indices {
  ix_article : Z;
  ix_name : Z;
  ix_quantity : Z
}.

Fixpoint find_column_indices_from (i : Z) (cells : row) (ix : indices)
    : indices :=
  match cells with
  | [] => ix
  | c :: rest =>
    let ix' :=
      if negb (cell_truthy c) then ix
      else
        let cell_lower := lower (str_of_cell c) in
        if any_in (map u ["артикул"; "код"]) cell_lower then
          mk_indices i (ix_name ix) (ix_quantity ix)
        else if any_in (map u ["наименование"; "название"; "товар"]) cell_lower then
          mk_indices (ix_article ix) i (ix_quantity ix)
        else if any_in (map u ["количество"; "кол-во"; "штук"]) cell_lower then
          mk_indices (ix_article ix) (ix_name ix) i
        else ix in
    find_column_indices_from (i + 1)%Z rest ix'
  end.

Definition find_column_indices (header_row : row) : indices :=
  find_column_indices_from 0%Z header_row (mk_indices (-1) (-1) (-1)).

(** ** [_extract_row_data] *)

(** [str(row[i] or '').strip()] when [i] is an index of the row, [''] when
    it is not. *)
Definition column_value (r : row) (i : Z) : result str :=
  if (0 <=? i)%Z && (i <? len_row r)%Z then
    c <- py_index r i ;; Ok (strip (cell_or_empty c))
  else Ok [].

Definition extract_row_data (r : row) (col_indices : indices)
    : result (option record) :=
  match r with
  | [] => Ok None
  | _ :: _ =>
    article <- column_value r (ix_article col_indices) ;;
    name <- column_value r (ix_name col_indices) ;;
    quantity <- column_value r (ix_quantity col_indices) ;;
    let article :=
      if negb (truthy article) then extract_article (row_text r)
      else article in
    let name :=
      if negb (truthy name) && truthy article then
        let full_text := row_text r in
        extract_name full_text article quantity
      else name in
    let quantity :=
      if negb (truthy quantity) then extract_quantity (row_text r)
      else quantity in
    if truthy article || truthy name then
      Ok (Some (mk_record article name quantity))
    else Ok None
  end.

(** ** [extract_from_table] *)

(** [cell is None or str(cell).strip() == ''] *)
Definition blank_cell (c : cell) : bool :=
  match c with
  | None => true
  | Some s => negb (truthy (strip s))
  end.

(** [not row or all(... for cell in row)] *)
Definition blank_row (r : row) : bool :=
  match r with
  | [] => true
  | _ :: _ => forallb blank_cell r
  end.

(** The body of the loop over the data rows. *)
Definition table_step (t : table) (col_indices : indices)
    (results : list record) (i : Z) : result (list record) :=
  r <- py_index t i ;;
  if blank_row r then Ok results
  else
    row_data <- extract_row_data r col_indices ;;
    match row_data with
    | Some d => Ok (results ++ [d])
    | None => Ok results
    end.

(** [_find_header_row] always returns a number, so the test
    [header_row is None] of the source never holds. *)
Definition extract_from_table (t : table) : result (list record) :=
  match t with
  | [] => Ok []
  | _ :: _ =>
    if (len_table t <? 2)%Z then Ok []
    else
      let header_row := find_header_row t in
      header <- py_index t header_row ;;
      let col_indices := find_column_indices header in
      for_each (table_step t col_indices)
               (py_range (header_row + 1) (len_table t)) []
  end.

(** ** Notions used in the proofs *)

(** The character before the position reached after [seg]. *)
Definition last_char (prev : option char) (seg : str) : option char :=
  fold_left (fun _ c => Some c) seg prev.

(** [n] repetitions respect the upper bound [hi]. *)
Definition fits (hi : option nat) (n : nat) : Prop :=
  match hi with
  | None => True
  | Some h => (n <= h)%nat
  end.

(** [matches p prev m rest]: the pattern [p] admits the text [m] between
    the character [prev] and the text [rest]. *)
Inductive matches : pattern -> option char -> str -> str -> Prop :=
| M_nil prev rest : matches [] prev [] rest
| M_cls f lo hi p prev seg m rest :
    forallb f seg = true -> (lo <= List.length seg)%nat ->
    fits hi (List.length seg) ->
    matches p (last_char prev seg) m rest ->
    matches (Cls f lo hi :: p) prev (seg ++ m) rest
| M_bos p m rest :
    matches p None m rest -> matches (Bos :: p) None m rest
| M_eos p prev m rest :
    at_end (m ++ rest) = true -> matches p prev m rest ->
    matches (Eos :: p) prev m rest
| M_wordb p prev m rest :
    boundary prev (m ++ rest) = true -> matches p prev m rest ->
    matches (WordB :: p) prev m rest.

(** The item takes the character [c]. *)
Definition accepts (c : char) (it : item) : bool :=
  match it with
  | Cls f _ _ => f c
  | _ => false
  end.

(** The item can match the empty text. *)
Definition nullable_item (it : item) : bool :=
  match it with
  | Cls _ lo _ => Nat.eqb lo 0
  | _ => true
  end.

(** The classes the first character of a match can come from. *)
Fixpoint first_classes (p : pattern) : list (char -> bool) :=
  match p with
  | [] => []
  | Cls f lo _ :: p' => f :: (if Nat.eqb lo 0 then first_classes p' else [])
  | _ :: p' => first_classes p'
  end.

(** The classes the last character of a match can come from. *)
Fixpoint last_classes (p : pattern) : list (char -> bool) :=
  match p with
  | [] => []
  | it :: p' =>
    (if forallb nullable_item p'
     then match it with Cls f _ _ => [f] | _ => [] end
     else []) ++ last_classes p'
  end.

(** One of the classes holds of [c]. *)
Definition some_class (fs : list (char -> bool)) (c : char) : bool :=
  existsb (fun f => f c) fs.

(** The records of one line. *)
Definition line_records (line : str) : list record := text_step [] line.

(** The three fields that [_extract_row_data] computes for a row that is
    not empty, from the values read at the column indices. *)
Definition row_fields (r : row) (article name quantity : str) : record :=
  let article' :=
    if negb (truthy article) then extract_article (row_text r) else article in
  let name' :=
    if negb (truthy name) && truthy article'
    then extract_name (row_text r) article' quantity else name in
  let quantity' :=
    if negb (truthy quantity) then extract_quantity (row_text r)
    else quantity in
  mk_record article' name' quantity'.

(** A solid character is one that the cleaning of a name never removes:
    not white space, not a decimal digit, not one of [.,;:-_|]. *)
Definition solid (c : char) : bool :=
  negb (isspace c) && negb (isdecimal c) &&
  negb (existsb (N.eqb c) (u ".,;:-_|")).

(** The solid characters of a text. *)
Definition solids (s : str) : str := filter solid s.

(** the basic Cyrillic small letters *)
Definition cyr (c : char) : bool := between 1072 1103 c.

(** ** The matchers in the words of the specification *)

(** The first substring that matches each pattern, in the order of the
    patterns. *)
Definition first_matches (patterns : list pattern) (text : str) : list str :=
  flat_map (fun p => match re_search p text with
                     | Some m => [m]
                     | None => []
                     end) patterns.

(** The pattern matches at the start of the text [s] that follows
    [prev]. *)
Definition matches_here (p : pattern) (prev : option char) (s : str) : Prop :=
  exists m rest, s = m ++ rest /\ matches p prev m rest.

(** [greedy p prev m rest]: of the texts that [p] admits between [prev]
    and [rest], [m] is the one that greedy quantifiers prefer: every class
    takes the longest run after which the rest of the pattern still
    matches. *)
Inductive greedy : pattern -> option char -> str -> str -> Prop :=
| G_nil prev rest : greedy [] prev [] rest
| G_cls f lo hi p prev seg m rest :
    forallb f seg = true -> (lo <= List.length seg)%nat ->
    fits hi (List.length seg) ->
    greedy p (last_char prev seg) m rest ->
    (forall seg' tail,
       seg' ++ tail = seg ++ m ++ rest ->
       (List.length seg < List.length seg')%nat ->
       forallb f seg' = true -> fits hi (List.length seg') ->
       ~ matches_here p (last_char prev seg') tail) ->
    greedy (Cls f lo hi :: p) prev (seg ++ m) rest
| G_bos p m rest :
    greedy p None m rest -> greedy (Bos :: p) None m rest
| G_eos p prev m rest :
    at_end (m ++ rest) = true -> greedy p prev m rest ->
    greedy (Eos :: p) prev m rest
| G_wordb p prev m rest :
    boundary prev (m ++ rest) = true -> greedy p prev m rest ->
    greedy (WordB :: p) prev m rest.

(** [m] is the first match of [p] in [text]: the match that the greedy
    quantifiers prefer at the leftmost position where [p] matches. *)
Definition first_match (p : pattern) (text m : str) : Prop :=
  exists pre rest,
    text = pre ++ m ++ rest /\
    greedy p (last_char None pre) m rest /\
    forall pre' tail,
      text = pre' ++ tail -> (List.length pre' < List.length pre)%nat ->
      ~ matches_here p (last_char None pre') tail.

(** Code Matcher: [c] is the first match of a pattern of the list, it is
    at least 3 characters long and not purely numeric, and no earlier
    pattern has a first match that passes this filter; or [c] is empty and
    no pattern has a first match that passes the filter. *)
Definition code_matcher_spec (patterns : list pattern) (text c : str)
    : Prop :=
  (exists i p,
     nth_error patterns i = Some p /\ first_match p text c /\
     valid_candidate c = true /\
     forall j q m,
       (j < i)%nat -> nth_error patterns j = Some q ->
       first_match q text m -> valid_candidate m = false) \/
  (c = [] /\
   forall p m, In p patterns -> first_match p text m ->
               valid_candidate m = false).

(** [m] is a substring of the line that matches a code pattern and is at
    least 3 characters long and not purely numeric. *)
Definition unfiltered_match (text m : str) : Prop :=
  exists p pre rest,
    In p article_patterns /\ text = pre ++ m ++ rest /\
    matches p (last_char None pre) m rest /\
    valid_candidate m = true.

(** ** Table mode in the words of the specification *)

(** A row counts as a header row when its non-empty cells, lower-cased and
    joined, contain at least 2 of the header keywords. *)
Definition is_header_row (r : row) : bool :=
  (2 <=? count_in table_header_words (header_text r))%Z.

(** [i] is an index of the row. *)
Definition in_bounds (r : row) (i : Z) : bool :=
  (0 <=? i)%Z && (i <? len_row r)%Z.

(** The trimmed text of the cell at an index of the row. *)
Definition cell_at (r : row) (i : Z) : str :=
  strip (cell_or_empty (nth (Z.to_nat i) r None)).

(** Every role whose column index is unresolved or out of bounds is filled
    by its matcher, run over the non-empty cells of the row joined in
    column order; the name residual is what the line leaves when the code
    and the quantity are removed. *)
Definition spec_row_fields (r : row) (col_indices : indices) : record :=
  let text := row_text r in
  let article :=
    if in_bounds r (ix_article col_indices)
    then cell_at r (ix_article col_indices) else extract_article text in
  let quantity :=
    if in_bounds r (ix_quantity col_indices)
    then cell_at r (ix_quantity col_indices) else extract_quantity text in
  let name :=
    if in_bounds r (ix_name col_indices)
    then cell_at r (ix_name col_indices)
    else extract_name text article quantity in
  mk_record article name quantity.

(** The line ends with the number [number]: a run of decimal digits that
    does not follow a word character and that only white space may
    follow. *)
Definition ends_with_number (text number : str) : Prop :=
  exists pre ws,
    text = pre ++ number ++ ws /\
    number <> [] /\ forallb isdecimal number = true /\
    forallb isspace ws = true /\
    match hd_error (rev pre) with
    | Some c => isword c = false
    | None => True
    end.

(** ** The record invariant in the words of the specification *)

(** The code is not empty, or the name is not empty and has at least 3
    characters after trimming. *)
Definition record_invariant (r : record) : Prop :=
  Article r <> [] \/ (Name r <> [] /\ (3 <= len (strip (Name r)))%Z).

(** ** Further notions used in the proofs *)

(** The characters a code is made of: ASCII letters and digits, [-], [_]
    and the decimal digits of [\d]. *)
Definition code_char (c : char) : bool :=
  alnum_az c || dash_us c || isdecimal c.

(** [p] and [q] have the same shape and every class of [p] lies in the
    class of [q] at its place. *)
Inductive pattern_le : pattern -> pattern -> Prop :=
| Le_nil : pattern_le [] []
| Le_cls f g lo hi p q :
    (forall c, f c = true -> g c = true) -> pattern_le p q ->
    pattern_le (Cls f lo hi :: p) (Cls g lo hi :: q)
| Le_bos p q : pattern_le p q -> pattern_le (Bos :: p) (Bos :: q)
| Le_eos p q : pattern_le p q -> pattern_le (Eos :: p) (Eos :: q)
| Le_wordb p q : pattern_le p q -> pattern_le (WordB :: p) (WordB :: q).

(** The quantity patterns without [\d+\s*штук] and [\d+\s*кг]. *)
Definition deciding_quantity_patterns : list pattern :=
  [ number_sp ++ lits_i "шт" ++ [opt (lit (ch "."))];
    number_sp ++ lits_i "едини" ++ [opt (lit_i (ch "ц"))];
    number_sp ++ [one (set_i (u "мкгт")); one (lit_i (ch "г"))];
    number_sp ++ lits_i "л";
    number_sp ++ lits_i "м" ].

(** ** [SimpleOCR.process_image] ([app.py])

    [text] is what [extract_text_from_image] returned for the image: the
    text of the recognizer, or [''] when it failed. *)
Definition process_image (text : str) : list record :=
  if truthy (strip text) then extract_from_text text else [].

(** ** Table mode row by row *)

(** The roles of the columns. *)
Inductive role := RArticle | RName | RQuantity.

(** The role that [_find_column_indices] gives to a header cell: the
    first keyword group that its lower-case text meets. *)
Definition header_role (c : cell) : option role :=
  if negb (cell_truthy c) then None
  else
    let cell_lower := lower (str_of_cell c) in
    if any_in (map u ["артикул"; "код"]) cell_lower then Some RArticle
    else if any_in (map u ["наименование"; "название"; "товар"]) cell_lower
    then Some RName
    else if any_in (map u ["количество"; "кол-во"; "штук"]) cell_lower
    then Some RQuantity
    else None.

(** [indices[role]] *)
Definition index_of (r : role) (ix : indices) : Z :=
  match r with
  | RArticle => ix_article ix
  | RName => ix_name ix
  | RQuantity => ix_quantity ix
  end.

(** The records of one data row: none for a blank row. *)
Definition row_records (col_indices : indices) (r : row) : list record :=
  if blank_row r then []
  else
    match extract_row_data r col_indices with
    | Ok (Some d) => [d]
    | _ => []
    end.

(** ** [PDFProcessor] ([modules/pdf_processor.py])

    The PDF and OCR libraries are outside the program.  A call of theirs
    either returns ([Read]) or raises ([Failed]); what each call gives for
    a document is the input of the model. *)

Inductive outcome (A : Type) :=
| Read (a : A)
| Failed.

#[global] Arguments Read {A} a.
#[global] Arguments Failed {A}.

(** A page as [pdfplumber] shows it: [page.extract_tables()] and
    [page.extract_text()]. *)
Record page := mk_page {
  page_tables : outcome (list table);
  page_text : outcome (option str)
}.

(** [text or ''] *)
Definition text_or_empty (text : option str) : str :=
  match text with Some s => s | None => [] end.

(** The loop over the tables of a page: the results, and whether an
    exception ended the loop. *)
Fixpoint tables_loop (tables : list table) (results : list record)
    : list record * bool :=
  match tables with
  | [] => (results, false)
  | t :: rest =>
    match extract_from_table t with
    | Ok table_data => tables_loop rest (results ++ table_data)
    | Raise _ => (results, true)
    end
  end.

(** The loop over the pages inside [try]: an exception ends it and leaves
    the results gathered so far. *)
Fixpoint pages_loop (pages : list page) (results : list record)
    : list record :=
  match pages with
  | [] => results
  | p :: rest =>
    match page_tables p with
    | Failed => results
    | Read tables =>
      let (results, raised) := tables_loop tables results in
      if raised then results
      else
        match tables with
        | [] =>
          match page_text p with
          | Failed => results
          | Read text =>
            pages_loop rest (results ++ extract_from_text (text_or_empty text))
          end
        | _ :: _ => pages_loop rest results
        end
    end
  end.

(** The loop of [_extract_with_ocr] over the texts recognized on the
    pages. *)
Fixpoint ocr_loop (texts : list (outcome str)) (results : list record)
    : list record :=
  match texts with
  | [] => results
  | Failed :: _ => results
  | Read text :: rest => ocr_loop rest (results ++ extract_from_text text)
  end.

(** [_extract_with_ocr]: [doc] is [Failed] when the document cannot be
    opened. *)
Definition extract_with_ocr (doc : outcome (list (outcome str)))
    : list record :=
  match doc with
  | Failed => []
  | Read texts => ocr_loop texts []
  end.

(** [extract_data]: [pdf] is what [pdfplumber] reads, [doc] what the OCR
    pass would read. *)
Definition extract_data (pdf : outcome (list page))
    (doc : outcome (list (outcome str))) : list record :=
  let results :=
    match pdf with
    | Failed => []
    | Read pages => pages_loop pages []
    end in
  if (Z.of_nat (List.length results) <? 3)%Z
  then results ++ extract_with_ocr doc
  else results.

(** The records of a table, and of a page that is read without failure. *)
Definition table_records (t : table) : list record :=
  match extract_from_table t with
  | Ok table_data => table_data
  | Raise _ => []
  end.

Definition page_records (tables : list table) (text : option str)
    : list record :=
  match tables with
  | [] => extract_from_text (text_or_empty text)
  | _ :: _ => flat_map table_records tables
  end.

(** The page is read without failure: its tables, and its text when it
    has no table. *)
Definition page_reads (p : page) (tables : list table) (text : option str)
    : Prop :=
  page_tables p = Read tables /\
  (tables = [] -> page_text p = Read text).

(** ** [ExcelExporter._auto_adjust_column_width]
    ([modules/excel_exporter.py])

    A column is given by the texts [str(cell.value)] of its cells. *)

Fixpoint max_length_loop (max_length : Z) (column : list str) : Z :=
  match column with
  | [] => max_length
  | value :: rest =>
    max_length_loop
      (if (len value >? max_length)%Z then len value else max_length) rest
  end.

(** The body of the loop over the columns: [column[0]] is read for the
    letter of the column before the cells are measured; the result is the
    width [min(max_length + 2, 50)] that is set. *)
Definition adjusted_width (column : list str) : result Z :=
  let max_length := 0%Z in
  first_cell <- py_index column 0 ;;
  let max_length := max_length_loop max_length column in
  Ok (Z.min (max_length + 2) 50).

(** ** The statistics of [_add_statistics_sheet] and of [main]

    A data frame with the three text columns is the list of its rows. *)

Definition str_eq_dec : forall a b : str, {a = b} + {a <> b} :=
  list_eq_dec N.eq_dec.

(** [dataframe['Артикул'].nunique()] ([excel_exporter.py]): the number of
    distinct values of the column. *)
Definition sheet_unique_articles (dataframe : list record) : Z :=
  Z.of_nat (List.length (nodup str_eq_dec (map Article dataframe))).

(** [len(dataframe[dataframe['Артикул'] != ''])] *)
Definition rows_with_article (dataframe : list record) : Z :=
  Z.of_nat (List.length (filter (fun r => truthy (Article r)) dataframe)).

(** [len(df[df['Артикул'] != '']['Артикул'].unique())] ([app.py]) *)
Definition shown_unique_articles (df : list record) : Z :=
  Z.of_nat (List.length
    (nodup str_eq_dec
       (map Article (filter (fun r => truthy (Article r)) df)))).

(** ** Plain spaces *)

(** The character is not white space, or it is the space U+0020. *)
Definition plain (c : char) : bool := negb (isspace c) || (c =? 32).

(** [p] finds something in every text in which [q] does. *)
Definition shadows (p q : pattern) : Prop :=
  forall text, re_search q text <> None -> re_search p text <> None.

(** The records of the pages that are read without failure. *)
Inductive pages_read : list page -> list record -> Prop :=
| Pages_nil : pages_read [] []
| Pages_cons p rest tables text rs :
    page_reads p tables text -> pages_read rest rs ->
    pages_read (p :: rest) (page_records tables text ++ rs).

(** Every record has a code or a name. *)
Definition has_code_or_name (r : record) : Prop :=
  Article r <> [] \/ Name r <> [].

End Extractor.

(** ** A Unicode database for Russian and ASCII text

    [russian_data] holds the white space of Unicode and the Cyrillic letters
    U+0400 to U+045F; it leaves every other code point above U+007F
    unclassified.  The concrete evaluations below use it on texts written
    with ASCII and these letters only. *)

Definition ru_space (c : char) : bool :=
  (c =? 133) || (c =? 160) || (c =? 5760) || between 8192 8202 c ||
  between 8232 8233 c || (c =? 8239) || (c =? 8287) || (c =? 12288).

Definition ru_letter (c : char) : bool := between 1024 1119 c.

Definition ru_lower (before : str) (c : char) (after : str) : str :=
  if between 1024 1039 c then [c + 80]
  else if between 1040 1071 c then [c + 32]
  else [c].

Definition ru_fold (p c : char) : bool :=
  (between 1072 1103 p && (c =? p - 32)) ||
  (between 1104 1119 p && (c =? p - 80)) ||
  (between 1040 1071 p && (c =? p + 32)) ||
  (between 1024 1039 p && (c =? p + 80)).

Ltac bool_lia :=
  repeat match goal with
  | H : _ && _ = true |- _ => apply andb_true_iff in H; destruct H
  | H : _ || _ = true |- _ => apply orb_true_iff in H; destruct H
  | H : (_ <=? _) = true |- _ => apply N.leb_le in H
  | H : (_ <? _) = true |- _ => apply N.ltb_lt in H
  | H : (_ =? _) = true |- _ => apply N.eqb_eq in H
  | H : (_ <=? _) = false |- _ => apply N.leb_gt in H
  | H : (_ <? _) = false |- _ => apply N.ltb_ge in H
  | H : (_ =? _) = false |- _ => apply N.eqb_neq in H
  | H : false = true |- _ => discriminate H
  | H : true = false |- _ => discriminate H
  end.

Lemma ru_letter_not_space (c : char) :
  between 1024 1119 c = true -> 128 <= c /\ ru_space c = false.
Proof.
  unfold between, ru_space. intros H. bool_lia. split; [lia|].
  repeat (apply orb_false_iff; split);
    try (apply andb_false_iff);
    repeat match goal with
    | |- (_ =? _) = false => apply N.eqb_neq; lia
    | |- _ \/ _ => left; apply N.leb_gt; lia
    end.
Qed.

Lemma ru_fold_cyrillic (p c : char) :
  between 1072 1103 p = true -> c = p \/ ru_fold p c = true ->
  128 <= c /\ ru_space c = false.
Proof.
  intros Hp Hf. apply ru_letter_not_space.
  unfold ru_fold, between in *. destruct Hf as [->|Hf]; bool_lia; subst;
    apply andb_true_iff; split; apply N.leb_le; lia.
Qed.

Lemma ru_lower_cyrillic (before : str) (c : char) (after : str) (x : char) :
  In x (ru_lower before c after) -> between 1072 1103 x = true ->
  ru_lower before c after = [x] /\ ru_space c = false /\ false = false.
Proof.
  unfold ru_lower. intros Hin Hx.
  assert (Hc : between 1024 1119 c = true).
  { unfold between in *.
    destruct ((1024 <=? c) && (c <=? 1039)) eqn:E1;
      [|destruct ((1040 <=? c) && (c <=? 1071)) eqn:E2];
      destruct Hin as [<-|[]]; bool_lia;
      apply andb_true_iff; split; apply N.leb_le; lia. }
  split; [|split; [apply ru_letter_not_space, Hc | reflexivity]].
  destruct (between 1024 1039 c); [|destruct (between 1040 1071 c)];
    destruct Hin as [<-|[]]; reflexivity.
Qed.

#[export] Instance russian_data : UnicodeData := {|
  uc_space := ru_space;
  uc_decimal := fun _ => false;
  uc_digit := fun _ => false;
  uc_alnum := ru_letter;
  uc_lower := ru_lower;
  uc_fold := ru_fold;
  uc_decimal_not_space := fun c (H : false = true) =>
    False_ind _ (diff_false_true H);
  uc_decimal_alnum := fun c (H : false = true) =>
    False_ind _ (diff_false_true H);
  uc_fold_cyrillic := ru_fold_cyrillic;
  uc_lower_cyrillic := ru_lower_cyrillic
|}.

(** * Properties *)

Section Properties.

Context {U : UnicodeData}.

(** ** Character classes *)

Lemma isdecimal_not_space (c : char) : isdecimal c = true -> isspace c = false.
Proof.
  unfold isdecimal, isspace, between. destruct (c <? 128) eqn:E.
  - intros H. bool_lia.
    apply orb_false_iff; split; apply andb_false_iff; right;
      apply N.leb_gt; lia.
  - apply uc_decimal_not_space.
Qed.

Lemma isdecimal_word (c : char) : isdecimal c = true -> isword c = true.
Proof.
  unfold isdecimal, isword, isalnum, alnum_az. destruct (c <? 128).
  - intros ->. rewrite orb_true_r. reflexivity.
  - intros H. rewrite (uc_decimal_alnum _ H). reflexivity.
Qed.

(** ** What a pattern matches

    The relation [matches] says which texts a pattern admits; which of
    them the matcher picks is decided by [match_at].  The matcher is sound
    and complete for the relation. *)

Lemma rep_sound (f : char -> bool) (k : option char -> str -> option str)
    (s : str) :
  forall lo hi prev m,
    rep f k lo hi prev s = Some m ->
    exists seg m2 s2,
      m = seg ++ m2 /\ s = seg ++ s2 /\ forallb f seg = true /\
      (lo <= List.length seg)%nat /\ fits hi (List.length seg) /\
      k (last_char prev seg) s2 = Some m2.
Proof.
  assert (Hstop : forall lo hi prev m s0,
    match lo with O => k prev s0 | S _ => None end = Some m ->
    exists seg m2 s2,
      m = seg ++ m2 /\ s0 = seg ++ s2 /\ forallb f seg = true /\
      (lo <= List.length seg)%nat /\ fits hi (List.length seg) /\
      k (last_char prev seg) s2 = Some m2).
  { intros lo hi prev m s0 H. destruct lo; [|discriminate].
    exists [], m, s0. repeat split; auto.
    destruct hi; simpl; lia. }
  induction s as [|c s IH]; intros lo hi prev m H.
  - apply Hstop. exact H.
  - simpl in H. destruct (f c && can_more hi) eqn:E.
    + destruct (rep f k (pred lo) (dec_hi hi) (Some c) s) as [m'|] eqn:R.
      * injection H as <-.
        apply IH in R. destruct R as (seg & m2 & s2 & -> & -> & Hf & Hlo & Hhi & Hk).
        apply andb_true_iff in E. destruct E as [Ec Em].
        exists (c :: seg), m2, s2. simpl. rewrite Ec, Hf.
        repeat split; auto; [lia|].
        destruct hi as [[|h]|]; simpl in *; try discriminate; try lia; auto.
      * apply Hstop. exact H.
    + apply Hstop. exact H.
Qed.

Lemma match_at_sound (p : pattern) :
  forall prev s m,
    match_at p prev s = Some m ->
    exists rest, s = m ++ rest /\ matches p prev m rest.
Proof.
  induction p as [|it p IH]; intros prev s m H.
  - injection H as <-. exists s. split; [reflexivity|constructor].
  - destruct it as [f lo hi| | |]; simpl in H.
    + apply rep_sound in H.
      destruct H as (seg & m2 & s2 & -> & -> & Hf & Hlo & Hhi & Hk).
      apply IH in Hk. destruct Hk as (rest & -> & Hm).
      exists rest. rewrite app_assoc. split; [reflexivity|].
      constructor; assumption.
    + destruct prev; simpl in H; [discriminate|].
      apply IH in H. destruct H as (rest & -> & Hm).
      exists rest. split; [reflexivity|constructor; assumption].
    + destruct (at_end s) eqn:E; [|discriminate].
      apply IH in H. destruct H as (rest & -> & Hm).
      exists rest. split; [reflexivity|constructor; assumption].
    + destruct (boundary prev s) eqn:E; [|discriminate].
      apply IH in H. destruct H as (rest & -> & Hm).
      exists rest. split; [reflexivity|constructor; assumption].
Qed.

Lemma search_from_sound (p : pattern) (s : str) :
  forall prev m,
    search_from p prev s = Some m ->
    exists pre rest,
      s = pre ++ m ++ rest /\ matches p (last_char prev pre) m rest.
Proof.
  induction s as [|c s IH]; intros prev m H; simpl in H.
  - destruct (match_at p prev []) as [m'|] eqn:E; [|discriminate].
    injection H as <-. apply match_at_sound in E.
    destruct E as (rest & E & Hm). exists [], rest. split; assumption.
  - destruct (match_at p prev (c :: s)) as [m'|] eqn:E.
    + injection H as <-. apply match_at_sound in E.
      destruct E as (rest & E & Hm). exists [], rest. split; assumption.
    + apply IH in H. destruct H as (pre & rest & -> & Hm).
      exists (c :: pre), rest. split; [reflexivity|exact Hm].
Qed.

Lemma rep_complete (f : char -> bool) (k : option char -> str -> option str)
    (s2 : str) (seg : str) :
  forall lo hi prev,
    forallb f seg = true -> (lo <= List.length seg)%nat ->
    fits hi (List.length seg) ->
    k (last_char prev seg) s2 <> None ->
    rep f k lo hi prev (seg ++ s2) <> None.
Proof.
  induction seg as [|c seg IH]; intros lo hi prev Hf Hlo Hhi Hk.
  - simpl in Hlo. assert (lo = O) by lia. subst lo. simpl in Hk.
    destruct s2 as [|c s2]; simpl; [exact Hk|].
    destruct (f c && can_more hi); [|exact Hk].
    destruct (rep f k 0 (dec_hi hi) (Some c) s2); [discriminate|exact Hk].
  - simpl in Hf. apply andb_true_iff in Hf. destruct Hf as [Hc Hf].
    simpl. rewrite Hc. simpl.
    assert (Hm : can_more hi = true).
    { destruct hi as [[|h]|]; simpl in *; try reflexivity; lia. }
    rewrite Hm.
    assert (R : rep f k (pred lo) (dec_hi hi) (Some c) (seg ++ s2) <> None).
    { apply IH; auto.
      - simpl in Hlo. lia.
      - destruct hi as [h|]; simpl in *; [lia|exact I]. }
    destruct (rep f k (pred lo) (dec_hi hi) (Some c) (seg ++ s2));
      [discriminate|contradiction].
Qed.

Lemma match_at_complete (p : pattern) (prev : option char) (m rest : str) :
  matches p prev m rest -> match_at p prev (m ++ rest) <> None.
Proof.
  induction 1 as [prev rest|f lo hi p prev seg m rest Hf Hlo Hhi Hm IH
                 |p m rest Hm IH|p prev m rest He Hm IH
                 |p prev m rest Hb Hm IH]; simpl.
  - discriminate.
  - rewrite <- app_assoc. apply rep_complete; assumption.
  - exact IH.
  - rewrite He. exact IH.
  - rewrite Hb. exact IH.
Qed.

Lemma search_from_complete (p : pattern) (m rest : str) (pre : str) :
  forall prev,
    matches p (last_char prev pre) m rest ->
    search_from p prev (pre ++ m ++ rest) <> None.
Proof.
  induction pre as [|c pre IH]; intros prev Hm.
  - apply match_at_complete in Hm. simpl in *.
    destruct (m ++ rest); simpl;
      destruct (match_at p prev _); try discriminate; contradiction.
  - simpl. destruct (match_at p prev (c :: pre ++ m ++ rest)); [discriminate|].
    apply IH. exact Hm.
Qed.

(** The characters of a match are taken from the classes of the pattern. *)
Lemma matches_classes (p : pattern) (prev : option char) (m rest : str) :
  matches p prev m rest ->
  forallb (fun c => existsb (accepts c) p) m = true.
Proof.
  induction 1 as [prev rest|f lo hi p prev seg m rest Hf Hlo Hhi Hm IH
                 |p m rest Hm IH|p prev m rest He Hm IH
                 |p prev m rest Hb Hm IH]; simpl; auto.
  rewrite forallb_app. apply andb_true_iff. split.
  - apply forallb_forall. intros c Hc.
    rewrite forallb_forall in Hf. rewrite (Hf c Hc). reflexivity.
  - apply forallb_forall. intros c Hc.
    rewrite forallb_forall in IH. rewrite (IH c Hc). apply orb_true_r.
Qed.

(** ** Stripping *)

Lemma lstrip_by_head (f : char -> bool) (c : char) (s : str) :
  f c = false -> lstrip_by f (c :: s) = c :: s.
Proof. intros H. simpl. rewrite H. reflexivity. Qed.

(** A text that neither starts nor ends with a character of [f] is left
    alone. *)
Lemma strip_by_id (f : char -> bool) (s : str) :
  (forall c, hd_error s = Some c -> f c = false) ->
  (forall c, hd_error (rev s) = Some c -> f c = false) ->
  strip_by f s = s.
Proof.
  intros Hh Hl. unfold strip_by, rstrip_by.
  assert (E : lstrip_by f s = s).
  { destruct s as [|c s]; [reflexivity|]. apply lstrip_by_head, Hh. reflexivity. }
  rewrite E.
  assert (E2 : lstrip_by f (rev s) = rev s).
  { destruct (rev s) as [|c r]; [reflexivity|]. apply lstrip_by_head, Hl. reflexivity. }
  rewrite E2. apply rev_involutive.
Qed.

Lemma strip_by_none (f : char -> bool) (s : str) :
  forallb (fun c => negb (f c)) s = true -> strip_by f s = s.
Proof.
  intros H. rewrite forallb_forall in H. apply strip_by_id.
  - intros c Hc. destruct s as [|x s]; [discriminate|]. injection Hc as ->.
    apply negb_true_iff, H. left. reflexivity.
  - intros c Hc. apply negb_true_iff, H, in_rev.
    destruct (rev s) as [|x r]; [discriminate|]. injection Hc as ->.
    left. reflexivity.
Qed.

(** ** The Code Matcher *)

Lemma printable_not_space (c : char) :
  33 <= c -> c < 128 -> isspace c = false.
Proof.
  intros H1 H2. unfold isspace, between.
  replace (c <? 128) with true by (symmetry; apply N.ltb_lt; lia).
  apply orb_false_iff; split; apply andb_false_iff; right;
    apply N.leb_gt; lia.
Qed.

Lemma ascii_class_not_space (c : char) :
  alnum_az c = true \/ dash_us c = true -> isspace c = false.
Proof.
  unfold alnum_az, alpha_az, upper_az, lower_az, dash_us, between.
  intros [H|H]; bool_lia; apply printable_not_space; lia.
Qed.

Lemma article_match_no_space (p : pattern) (c : char) :
  In p article_patterns -> existsb (accepts c) p = true -> isspace c = false.
Proof.
  assert (A : alpha_az c = true -> alnum_az c = true).
  { unfold alnum_az. intros ->. reflexivity. }
  assert (B : upper_az c = true -> alnum_az c = true).
  { unfold alnum_az, alpha_az. intros ->. reflexivity. }
  unfold article_patterns.
  intros [<-|[<-|[<-|[<-|[]]]]]; cbn [existsb accepts rng one opt star plus];
    intros H;
    repeat match type of H with
    | _ || _ = true => apply orb_true_iff in H; destruct H as [H|H]
    end;
    try discriminate;
    first [ apply isdecimal_not_space; exact H
          | apply ascii_class_not_space; auto ].
Qed.

Lemma article_match_strip (p : pattern) (text m : str) :
  In p article_patterns -> re_search p text = Some m -> strip m = m.
Proof.
  intros Hp Hs. apply search_from_sound in Hs.
  destruct Hs as (pre & rest & _ & Hm). apply matches_classes in Hm.
  apply strip_by_none. apply forallb_forall. intros c Hc.
  rewrite forallb_forall in Hm. apply negb_true_iff.
  apply (article_match_no_space p); auto.
Qed.

(** ** The match that [re.search] picks

    [greedy] and [first_match] say, without the matcher, which match is
    picked; the matcher finds exactly that one. *)

Lemma greedy_matches (p : pattern) (prev : option char) (m rest : str) :
  greedy p prev m rest -> matches p prev m rest.
Proof.
  induction 1; constructor; auto.
Qed.

Lemma app_same_length {A : Type} (a c b d : list A) :
  a ++ b = c ++ d -> List.length a = List.length c -> a = c /\ b = d.
Proof.
  revert c. induction a as [|x a IH]; intros [|y c] E L;
    simpl in *; try discriminate.
  - split; [reflexivity|exact E].
  - injection E as -> E. injection L as L.
    destruct (IH c E L) as [-> ->]. split; reflexivity.
Qed.

Lemma fits_dec_hi (hi : option nat) (n : nat) :
  fits hi (S n) -> fits (dec_hi hi) n /\ can_more hi = true.
Proof.
  destruct hi as [[|h]|]; simpl; intros H; split; auto; lia.
Qed.

Lemma rep_longest (f : char -> bool) (k : option char -> str -> option str)
    (s : str) :
  forall lo hi prev m,
    rep f k lo hi prev s = Some m ->
    exists seg m2 s2,
      m = seg ++ m2 /\ s = seg ++ s2 /\ forallb f seg = true /\
      (lo <= List.length seg)%nat /\ fits hi (List.length seg) /\
      k (last_char prev seg) s2 = Some m2 /\
      forall seg' tail,
        seg' ++ tail = s -> (List.length seg < List.length seg')%nat ->
        forallb f seg' = true -> fits hi (List.length seg') ->
        k (last_char prev seg') tail = None.
Proof.
  induction s as [|c s IH]; intros lo hi prev m H.
  - simpl in H. destruct lo; [|discriminate].
    exists [], m, []. repeat split; auto.
    + destruct hi; simpl; lia.
    + intros seg' tail E L. apply app_eq_nil in E. destruct E as [-> _].
      simpl in L. lia.
  - simpl in H. destruct (f c && can_more hi) eqn:E.
    + destruct (rep f k (pred lo) (dec_hi hi) (Some c) s) as [m'|] eqn:R.
      * injection H as <-.
        apply IH in R.
        destruct R as (seg & m2 & s2 & -> & -> & Hf & Hlo & Hhi & Hk & Hmax).
        apply andb_true_iff in E. destruct E as [Ec Em].
        exists (c :: seg), m2, s2. simpl. rewrite Ec, Hf.
        repeat split; auto; [lia| |].
        -- destruct hi as [[|h]|]; simpl in *; try discriminate; try lia; auto.
        -- intros [|c' seg'] tail E L Hf' Hfit; simpl in L; [lia|].
           simpl in E. injection E as -> E.
           simpl in Hf'. apply andb_true_iff in Hf'. destruct Hf' as [_ Hf'].
           simpl in Hfit. apply fits_dec_hi in Hfit. destruct Hfit as [Hfit _].
           apply (Hmax seg' tail); auto. lia.
      * destruct lo; [|discriminate].
        exists [], m, (c :: s). repeat split; auto.
        -- destruct hi; simpl; lia.
        -- intros [|c' seg'] tail E' L Hf' Hfit; simpl in L; [lia|].
           simpl in E'. injection E' as -> E'.
           simpl in Hf'. apply andb_true_iff in Hf'. destruct Hf' as [_ Hf'].
           simpl in Hfit. apply fits_dec_hi in Hfit. destruct Hfit as [Hfit _].
           destruct (k (last_char prev (c :: seg')) tail) eqn:K; [|reflexivity].
           exfalso.
           apply (rep_complete f k tail seg' (pred 0) (dec_hi hi) (Some c));
             auto.
           ++ simpl. lia.
           ++ simpl in K. rewrite K. discriminate.
           ++ rewrite E'. exact R.
    + destruct lo; [|discriminate].
      exists [], m, (c :: s). repeat split; auto.
      * destruct hi; simpl; lia.
      * intros [|c' seg'] tail E' L Hf' Hfit; simpl in L; [lia|].
        simpl in E'. injection E' as -> E'.
        simpl in Hf'. apply andb_true_iff in Hf'. destruct Hf' as [Hc _].
        simpl in Hfit. apply fits_dec_hi in Hfit. destruct Hfit as [_ Hmore].
        rewrite Hc, Hmore in E. discriminate.
Qed.

Lemma match_at_greedy (p : pattern) :
  forall prev s m,
    match_at p prev s = Some m ->
    exists rest, s = m ++ rest /\ greedy p prev m rest.
Proof.
  induction p as [|it p IH]; intros prev s m H.
  - injection H as <-. exists s. split; [reflexivity|constructor].
  - destruct it as [f lo hi| | |]; simpl in H.
    + apply rep_longest in H.
      destruct H as (seg & m2 & s2 & -> & -> & Hf & Hlo & Hhi & Hk & Hmax).
      apply IH in Hk. destruct Hk as (rest & -> & Hg).
      exists rest. rewrite app_assoc. split; [reflexivity|].
      constructor; auto.
      intros seg' tail E L Hf' Hfit (m' & rest' & -> & Hm').
      apply match_at_complete in Hm'. apply Hm'.
      apply Hmax; auto.
    + destruct prev; simpl in H; [discriminate|].
      apply IH in H. destruct H as (rest & -> & Hg).
      exists rest. split; [reflexivity|constructor; assumption].
    + destruct (at_end s) eqn:E; [|discriminate].
      apply IH in H. destruct H as (rest & -> & Hg).
      exists rest. split; [reflexivity|constructor; assumption].
    + destruct (boundary prev s) eqn:E; [|discriminate].
      apply IH in H. destruct H as (rest & -> & Hg).
      exists rest. split; [reflexivity|constructor; assumption].
Qed.

Lemma greedy_unique (p : pattern) (prev : option char) (m rest : str) :
  greedy p prev m rest ->
  forall m' rest',
    greedy p prev m' rest' -> m ++ rest = m' ++ rest' -> m = m'.
Proof.
  induction 1 as [prev rest|f lo hi p prev seg m rest Hf Hlo Hhi Hg IH Hmax
                 |p m rest Hg IH|p prev m rest He Hg IH
                 |p prev m rest Hb Hg IH]; intros m' rest' H' E.
  - inversion H'. reflexivity.
  - inversion H' as [|f0 lo0 hi0 p0 prev0 seg0 m0 rest0 Hf0 Hlo0 Hhi0 Hg0 Hmax0
                    | | |]; subst.
    rewrite <- !app_assoc in E.
    destruct (lt_eq_lt_dec (List.length seg) (List.length seg0)) as [[L|L]|L].
    + exfalso. apply (Hmax seg0 (m0 ++ rest')); auto.
      exists m0, rest'. split; [reflexivity|].
      apply greedy_matches. exact Hg0.
    + destruct (app_same_length _ _ _ _ E L) as [<- E'].
      f_equal. apply (IH m0 rest'); assumption.
    + exfalso. apply (Hmax0 seg (m ++ rest)); auto.
      exists m, rest. split; [reflexivity|].
      apply greedy_matches. exact Hg.
  - inversion H'; subst. apply (IH m' rest'); assumption.
  - inversion H'; subst. apply (IH m' rest'); assumption.
  - inversion H'; subst. apply (IH m' rest'); assumption.
Qed.

Lemma search_from_first (p : pattern) (s : str) :
  forall prev m,
    search_from p prev s = Some m ->
    exists pre rest,
      s = pre ++ m ++ rest /\ greedy p (last_char prev pre) m rest /\
      forall pre' tail,
        s = pre' ++ tail -> (List.length pre' < List.length pre)%nat ->
        ~ matches_here p (last_char prev pre') tail.
Proof.
  induction s as [|c s IH]; intros prev m H; simpl in H.
  - destruct (match_at p prev []) as [m'|] eqn:E; [|discriminate].
    injection H as <-. apply match_at_greedy in E.
    destruct E as (rest & E & Hg). exists [], rest.
    repeat split; auto. intros pre' tail _ L. simpl in L. lia.
  - destruct (match_at p prev (c :: s)) as [m'|] eqn:E.
    + injection H as <-. apply match_at_greedy in E.
      destruct E as (rest & E & Hg). exists [], rest.
      repeat split; auto. intros pre' tail _ L. simpl in L. lia.
    + apply IH in H. destruct H as (pre & rest & -> & Hg & Hleft).
      exists (c :: pre), rest. repeat split; auto.
      intros [|c' pre'] tail E' L (m' & rest' & -> & Hm').
      * simpl in E'. apply match_at_complete in Hm'.
        rewrite <- E' in Hm'. apply Hm'. exact E.
      * simpl in E'. injection E' as <- E'. simpl in L.
        apply (Hleft pre' (m' ++ rest')); [exact E'|lia|].
        exists m', rest'. split; [reflexivity|exact Hm'].
Qed.

Lemma re_search_first_match (p : pattern) (text m : str) :
  re_search p text = Some m -> first_match p text m.
Proof.
  intros H. apply search_from_first in H.
  destruct H as (pre & rest & E & Hg & Hleft).
  exists pre, rest. repeat split; auto.
Qed.

Lemma first_match_found (p : pattern) (text m : str) :
  first_match p text m -> re_search p text <> None.
Proof.
  intros (pre & rest & -> & Hg & _).
  apply search_from_complete. apply greedy_matches. exact Hg.
Qed.

Lemma first_match_unique (p : pattern) (text m m' : str) :
  first_match p text m -> first_match p text m' -> m = m'.
Proof.
  intros (pre & rest & E & Hg & Hleft) (pre' & rest' & E' & Hg' & Hleft').
  destruct (lt_eq_lt_dec (List.length pre) (List.length pre')) as [[L|L]|L].
  - exfalso. apply (Hleft' pre (m ++ rest)); auto.
    exists m, rest. split; [reflexivity|apply greedy_matches; exact Hg].
  - rewrite E in E'. destruct (app_same_length _ _ _ _ E' L) as [<- E2].
    apply (greedy_unique _ _ _ _ Hg m' rest'); assumption.
  - exfalso. apply (Hleft pre' (m' ++ rest')); auto.
    exists m', rest'. split; [reflexivity|apply greedy_matches; exact Hg'].
Qed.

Lemma first_match_re_search (p : pattern) (text m : str) :
  first_match p text m -> re_search p text = Some m.
Proof.
  intros H. destruct (re_search p text) as [m'|] eqn:E.
  - apply re_search_first_match in E.
    rewrite (first_match_unique _ _ _ _ H E). reflexivity.
  - exfalso. apply (first_match_found _ _ _ H). exact E.
Qed.

(** ** The Code Matcher *)

Lemma code_matcher_spec_cons (p : pattern) (ps : list pattern)
    (text c : str) :
  (forall m, first_match p text m -> valid_candidate m = false) ->
  code_matcher_spec ps text c <-> code_matcher_spec (p :: ps) text c.
Proof.
  intros Hp. split.
  - intros [(i & q & Hn & Hfm & Hv & He)|[-> Hall]].
    + left. exists (S i), q. repeat split; auto.
      intros [|j] q' m' Hj Hn' Hfm'.
      * simpl in Hn'. injection Hn' as <-. apply Hp. exact Hfm'.
      * apply (He j q' m'); auto. lia.
    + right. split; [reflexivity|].
      intros q m [<-|Hq] Hfm; [apply Hp; exact Hfm|apply (Hall q m); auto].
  - intros [(i & q & Hn & Hfm & Hv & He)|[-> Hall]].
    + destruct i as [|i].
      * simpl in Hn. injection Hn as <-.
        rewrite (Hp c Hfm) in Hv. discriminate.
      * left. exists i, q. repeat split; auto.
        intros j q' m' Hj Hn' Hfm'. apply (He (S j) q' m'); auto. lia.
    + right. split; [reflexivity|].
      intros q m Hq Hfm. apply (Hall q m); auto. right. exact Hq.
Qed.

Lemma extract_article_from_first (text : str) (patterns : list pattern) :
  (forall p m, In p patterns -> re_search p text = Some m -> strip m = m) ->
  forall c,
    extract_article_from patterns text = c <->
    code_matcher_spec patterns text c.
Proof.
  induction patterns as [|p ps IH]; intros Hs c.
  - simpl. split.
    + intros <-. right. split; [reflexivity|]. intros p m [].
    + intros [(i & p & Hn & _)|[-> _]]; [|reflexivity].
      destruct i; discriminate.
  - assert (IH' : extract_article_from ps text = c <->
                  code_matcher_spec ps text c).
    { apply IH. intros q m Hq. apply Hs. right. exact Hq. }
    simpl. destruct (re_search p text) as [m|] eqn:E.
    + rewrite (Hs p m (or_introl eq_refl) E).
      destruct (valid_candidate m) eqn:V.
      * split.
        -- intros <-. left. exists 0%nat, p. repeat split; auto.
           ++ apply re_search_first_match. exact E.
           ++ intros j q m' Hj. lia.
        -- intros [(i & q & Hn & Hfm & Hv & He)|[-> Hall]].
           ++ destruct i as [|i].
              ** simpl in Hn. injection Hn as <-.
                 apply first_match_re_search in Hfm. rewrite E in Hfm.
                 injection Hfm as ->. reflexivity.
              ** exfalso.
                 assert (F : valid_candidate m = false).
                 { apply (He 0%nat p m); [lia|reflexivity|].
                   apply re_search_first_match. exact E. }
                 rewrite V in F. discriminate.
           ++ exfalso.
              assert (F : valid_candidate m = false).
              { apply (Hall p m); [left; reflexivity|].
                apply re_search_first_match. exact E. }
              rewrite V in F. discriminate.
      * rewrite IH'. apply code_matcher_spec_cons.
        intros m' Hfm. apply first_match_re_search in Hfm.
        rewrite E in Hfm. injection Hfm as <-. exact V.
    + rewrite IH'. apply code_matcher_spec_cons.
      intros m' Hfm. exfalso. apply (first_match_found _ _ _ Hfm). exact E.
Qed.

(** C4.  The Code Matcher goes through the code patterns in order and
    looks at the first match of each pattern only: the match that the
    greedy quantifiers prefer at the leftmost position where the pattern
    matches.  It returns the first of these first matches that is at
    least 3 characters long and not purely numeric, and the empty string
    when no pattern has a first match that passes this filter; this
    determines the result.  For ["100500"] it returns the empty string. *)
Theorem C4_code_matcher :
  (forall text c,
     extract_article text = c <-> code_matcher_spec article_patterns text c) /\
  extract_article (u "100500") = [].
Proof.
  split.
  - intros text. apply extract_article_from_first.
    intros p m. apply article_match_strip.
  - vm_compute. reflexivity.
Qed.

(** ** The first and the last character of a match *)

Lemma matches_first (p : pattern) (prev : option char) (m rest : str) :
  matches p prev m rest ->
  forall c, hd_error m = Some c -> some_class (first_classes p) c = true.
Proof.
  induction 1 as [prev rest|f lo hi p prev seg m rest Hf Hlo Hhi Hm IH
                 |p m rest Hm IH|p prev m rest He Hm IH
                 |p prev m rest Hb Hm IH]; intros c Hc; simpl; auto.
  - discriminate.
  - destruct seg as [|x seg].
    + simpl in *. assert (lo = O) by lia. subst lo.
      unfold some_class in *. simpl. rewrite (IH c Hc). apply orb_true_r.
    + simpl in Hc. injection Hc as ->. simpl in Hf.
      apply andb_true_iff in Hf. destruct Hf as [Hx _].
      unfold some_class. simpl. rewrite Hx. reflexivity.
Qed.

Lemma matches_empty_nullable (p : pattern) (prev : option char) (m rest : str) :
  matches p prev m rest -> m = [] -> forallb nullable_item p = true.
Proof.
  induction 1 as [prev rest|f lo hi p prev seg m rest Hf Hlo Hhi Hm IH
                 |p m rest Hm IH|p prev m rest He Hm IH
                 |p prev m rest Hb Hm IH]; intros E; simpl; auto.
  apply app_eq_nil in E. destruct E as [-> ->]. simpl in Hlo.
  assert (lo = O) by lia. subst lo. simpl. apply IH. reflexivity.
Qed.

Lemma matches_last (p : pattern) (prev : option char) (m rest : str) :
  matches p prev m rest ->
  forall c, hd_error (rev m) = Some c -> some_class (last_classes p) c = true.
Proof.
  induction 1 as [prev rest|f lo hi p prev seg m rest Hf Hlo Hhi Hm IH
                 |p m rest Hm IH|p prev m rest He Hm IH
                 |p prev m rest Hb Hm IH]; intros c Hc; simpl.
  - discriminate.
  - unfold some_class. rewrite existsb_app. apply orb_true_iff.
    destruct m as [|y m].
    + left. rewrite (matches_empty_nullable _ _ _ _ Hm eq_refl).
      rewrite app_nil_r in Hc. simpl. rewrite orb_false_r.
      rewrite forallb_forall in Hf. apply Hf, in_rev.
      destruct (rev seg); [discriminate|]. injection Hc as ->. left. reflexivity.
    + right. apply IH. rewrite rev_app_distr in Hc.
      destruct (rev (y :: m)) eqn:E.
      * apply (f_equal (@List.length char)) in E.
        rewrite length_rev in E. discriminate.
      * exact Hc.
  - unfold some_class in *. destruct (forallb nullable_item p); simpl; auto.
  - unfold some_class in *. destruct (forallb nullable_item p); simpl; auto.
  - unfold some_class in *. destruct (forallb nullable_item p); simpl; auto.
Qed.

(** A match that starts and ends with characters that are not white
    space is left alone by [strip]. *)
Lemma search_strip_id (p : pattern) (text m : str) :
  (forall c, some_class (first_classes p) c = true -> isspace c = false) ->
  (forall c, some_class (last_classes p) c = true -> isspace c = false) ->
  re_search p text = Some m -> strip m = m.
Proof.
  intros Hf Hl Hs. apply search_from_sound in Hs.
  destruct Hs as (pre & rest & _ & Hm).
  apply strip_by_id.
  - intros c Hc. apply Hf. apply (matches_first _ _ _ _ Hm c Hc).
  - intros c Hc. apply Hl. apply (matches_last _ _ _ _ Hm c Hc).
Qed.

(** ** The Quantity Matcher *)

Lemma lit_i_cyrillic_not_space (p c : char) :
  between 1072 1103 p = true -> lit_i p c = true -> isspace c = false.
Proof.
  intros Hp H. unfold lit_i in H.
  assert (Hlo : 1072 <= p).
  { unfold between in Hp. apply andb_true_iff in Hp. destruct Hp as [Hp _].
    apply N.leb_le in Hp. exact Hp. }
  assert (E1 : upper_az p = false).
  { unfold upper_az, between. apply andb_false_iff. right.
    apply N.leb_gt. lia. }
  assert (E2 : lower_az p = false).
  { unfold lower_az, between. apply andb_false_iff. right.
    apply N.leb_gt. lia. }
  rewrite E1, E2 in H. simpl in H. rewrite !orb_false_r in H.
  assert (D : c = p \/ uc_fold p c = true).
  { apply orb_true_iff in H. destruct H as [H|H]; [left|right; exact H].
    apply N.eqb_eq. exact H. }
  destruct (uc_fold_cyrillic p c Hp D) as [Hc Hs].
  unfold isspace. replace (c <? 128) with false; [exact Hs|].
  symmetry. apply N.ltb_ge. exact Hc.
Qed.

Ltac split_orb H :=
  repeat match type of H with
  | _ || _ = true => apply orb_true_iff in H; destruct H as [H|H]
  end.

Lemma quantity_match_ends (p : pattern) (c : char) :
  In p quantity_patterns ->
  some_class (first_classes p) c = true \/
  some_class (last_classes p) c = true ->
  isspace c = false.
Proof.
  unfold quantity_patterns.
  intros [<-|[<-|[<-|[<-|[<-|[<-|[<-|[]]]]]]]] [H|H]; cbn in H;
    split_orb H; try discriminate;
    first [ apply isdecimal_not_space; exact H
          | apply N.eqb_eq in H; subst c; reflexivity
          | eapply lit_i_cyrillic_not_space; [|exact H]; reflexivity ].
Qed.

Lemma quantity_match_strip (p : pattern) (text m : str) :
  In p quantity_patterns -> re_search p text = Some m -> strip m = m.
Proof.
  intros Hp. apply search_strip_id; intros c Hc;
    apply (quantity_match_ends p c Hp); [left|right]; exact Hc.
Qed.

Lemma extract_quantity_from_spec (text : str) (patterns : list pattern) :
  (forall p m, In p patterns -> re_search p text = Some m -> strip m = m) ->
  extract_quantity_from patterns text = hd_error (first_matches patterns text).
Proof.
  induction patterns as [|p ps IH]; intros H; [reflexivity|].
  simpl. destruct (re_search p text) as [m|] eqn:E.
  - rewrite (H p m (or_introl eq_refl) E). reflexivity.
  - simpl. apply IH. intros q m' Hq. apply H. right. exact Hq.
Qed.

(** *** The number at the end of the line *)

Lemma forallb_rev {A : Type} (f : A -> bool) (l : list A) :
  forallb f (rev l) = forallb f l.
Proof.
  induction l as [|a l IH]; [reflexivity|].
  simpl. rewrite forallb_app, IH. simpl. rewrite andb_true_r. apply andb_comm.
Qed.

Lemma lstrip_by_all (f : char -> bool) (a b : str) :
  forallb f a = true -> lstrip_by f (a ++ b) = lstrip_by f b.
Proof.
  induction a as [|c a IH]; intros H; [reflexivity|].
  simpl in *. apply andb_true_iff in H. destruct H as [-> H]. apply IH, H.
Qed.

Lemma lstrip_by_stop (f : char -> bool) (s : str) :
  (forall c, hd_error s = Some c -> f c = false) -> lstrip_by f s = s.
Proof.
  destruct s as [|c s]; intros H; [reflexivity|].
  apply lstrip_by_head, H. reflexivity.
Qed.

Lemma rstrip_by_all (f : char -> bool) (a b : str) :
  forallb f b = true -> rstrip_by f (a ++ b) = rstrip_by f a.
Proof.
  intros H. unfold rstrip_by. rewrite rev_app_distr, lstrip_by_all;
    [reflexivity|]. rewrite forallb_rev. exact H.
Qed.

Lemma rstrip_by_stop (f : char -> bool) (s : str) :
  (forall c, hd_error (rev s) = Some c -> f c = false) -> rstrip_by f s = s.
Proof.
  intros H. unfold rstrip_by. rewrite lstrip_by_stop by exact H.
  apply rev_involutive.
Qed.


Lemma forallb_hd (f : char -> bool) (s : str) (c : char) :
  forallb f s = true -> hd_error s = Some c -> f c = true.
Proof.
  destruct s as [|x s]; [discriminate|]. simpl. intros H [= <-].
  apply andb_true_iff in H. apply H.
Qed.

Lemma forallb_last (f : char -> bool) (s : str) (c : char) :
  forallb f s = true -> hd_error (rev s) = Some c -> f c = true.
Proof.
  intros H. apply forallb_hd. rewrite forallb_rev. exact H.
Qed.

(** In [pre ++ number ++ ws] the number is what [strip] leaves of
    [number ++ ws], and it is determined by the text. *)
Lemma strip_number (number ws : str) :
  forallb isdecimal number = true -> forallb isspace ws = true ->
  strip (number ++ ws) = number.
Proof.
  intros Hn Hw. unfold strip, strip_by.
  destruct number as [|d number].
  - simpl. rewrite <- (app_nil_r ws), lstrip_by_all by exact Hw. reflexivity.
  - rewrite lstrip_by_stop.
    + rewrite rstrip_by_all by exact Hw. apply rstrip_by_stop.
      intros c Hc. apply isdecimal_not_space. apply (forallb_last _ _ _ Hn Hc).
    + intros c [= <-]. apply isdecimal_not_space.
      simpl in Hn. apply andb_true_iff in Hn. apply Hn.
Qed.

Lemma last_char_rev (pre : str) :
  last_char None pre = hd_error (rev pre).
Proof.
  assert (G : forall prev, last_char prev pre =
            match hd_error (rev pre) with Some c => Some c | None => prev end).
  { induction pre as [|c pre IH]; intros prev; [reflexivity|].
    simpl. rewrite IH. destruct (rev pre); reflexivity. }
  rewrite G. destruct (hd_error (rev pre)); reflexivity.
Qed.


Lemma opt_word_last (pre : str) :
  opt_word (last_char None pre) = false <->
  match hd_error (rev pre) with
  | Some c => isword c = false
  | None => True
  end.
Proof.
  rewrite last_char_rev. destruct (hd_error (rev pre)); simpl; tauto.
Qed.

Lemma at_end_spaces (rest : str) :
  at_end rest = true -> forallb isspace rest = true.
Proof.
  destruct rest as [|c [|c' rest]]; simpl; try discriminate; auto.
  intros H. apply N.eqb_eq in H. subst c. reflexivity.
Qed.

Lemma number_at_end_sound (text m : str) :
  re_search number_at_end text = Some m ->
  exists number, ends_with_number text number /\ strip m = number.
Proof.
  intros H. apply search_from_sound in H.
  destruct H as (pre & rest & E & Hm).
  unfold number_at_end, plus, star in Hm.
  inversion Hm as [| | | |p0 prev0 m0 rest0 Hb Hm1]; subst; clear Hm.
  inversion Hm1 as [|f lo hi p0 prev0 seg1 m1 rest0 Hd Hlo _ Hm2| | |];
    subst; clear Hm1.
  inversion Hm2 as [|f lo hi p0 prev0 seg2 m2 rest0 Hs _ _ Hm3| | |];
    subst; clear Hm2.
  inversion Hm3 as [| | |p0 prev0 m0 rest0 He Hm4|]; subst; clear Hm3.
  inversion Hm4; subst; clear Hm4.
  simpl in He. rewrite app_nil_r in *.
  exists seg1. split.
  - exists pre, (seg2 ++ rest).
    split; [rewrite <- !app_assoc; reflexivity|].
    split; [destruct seg1; [simpl in Hlo; lia|discriminate]|].
    split; [exact Hd|].
    split; [rewrite forallb_app, Hs; apply at_end_spaces; exact He|].
    apply opt_word_last. unfold boundary in Hb.
    destruct seg1 as [|d seg1]; [simpl in Hlo; lia|].
    simpl in Hb, Hd. apply andb_true_iff in Hd. destruct Hd as [Hd _].
    rewrite (isdecimal_word d Hd) in Hb.
    destruct (opt_word (last_char None pre)); [discriminate|reflexivity].
  - apply strip_number; assumption.
Qed.



(** ** Line mode *)

Lemma text_step_app (results : list record) (line : str) :
  text_step results line = results ++ line_records line.
Proof.
  unfold line_records, text_step.
  repeat match goal with
  | |- context [if ?b then _ else _] => destruct b
  end; simpl; rewrite ?app_nil_r; reflexivity.
Qed.

Lemma fold_text_step (lines : list str) :
  forall results,
    fold_left text_step lines results =
    results ++ flat_map line_records lines.
Proof.
  induction lines as [|l ls IH]; intros results; simpl.
  - rewrite app_nil_r. reflexivity.
  - rewrite IH, text_step_app, app_assoc. reflexivity.
Qed.

(** The records of a text are those of its lines, in the order of the
    lines. *)
Lemma extract_from_text_lines (text : str) :
  extract_from_text text = flat_map line_records (split_lines text).
Proof. unfold extract_from_text. apply fold_text_step. Qed.

Lemma line_records_short (line : str) :
  (len (strip line) < 3)%Z -> line_records line = [].
Proof.
  intros H. unfold line_records, text_step.
  replace (len (strip line) <? 3)%Z with true by (symmetry; apply Z.ltb_lt; exact H).
  rewrite orb_true_r. reflexivity.
Qed.

Lemma line_records_header (line : str) :
  any_in text_header_words (lower (strip line)) = true ->
  line_records line = [].
Proof.
  intros H. unfold line_records, text_step. rewrite H.
  destruct (negb (truthy (strip line)) || (len (strip line) <? 3)%Z);
    reflexivity.
Qed.

(** A record that line mode emits has a code, or a name of 3 characters
    or more. *)
Lemma line_records_invariant (line : str) (r : record) :
  In r (line_records line) ->
  Article r <> [] \/ (3 <= len (Name r))%Z.
Proof.
  unfold line_records, text_step.
  set (l := strip line).
  set (a := extract_article l). set (q := extract_quantity l).
  set (n := extract_name l a q).
  destruct (negb (truthy l) || (len l <? 3)%Z); [intros []|].
  destruct (any_in text_header_words (lower l)); [intros []|].
  destruct (truthy a || truthy q || looks_like_product_line l); [|intros []].
  destruct (truthy a || truthy n && (2 <? len n)%Z) eqn:E; [|intros []].
  intros [<-|[]]. simpl.
  apply orb_true_iff in E. destruct E as [E|E].
  - left. destruct a; discriminate.
  - right. apply andb_true_iff in E. destruct E as [_ E].
    apply Z.ltb_lt in E. lia.
Qed.

(** ** Table mode: nothing raises *)

Lemma py_index_ok {A : Type} (l : list A) (i : Z) :
  (0 <= i < Z.of_nat (List.length l))%Z ->
  exists a, py_index l i = Ok a /\ nth_error l (Z.to_nat i) = Some a.
Proof.
  intros H. unfold py_index.
  replace (i <? 0)%Z with false by (symmetry; apply Z.ltb_ge; lia).
  replace (i <? 0)%Z with false by (symmetry; apply Z.ltb_ge; lia).
  destruct (nth_error l (Z.to_nat i)) as [a|] eqn:E.
  - exists a. split; reflexivity.
  - apply nth_error_None in E. lia.
Qed.

Lemma column_value_ok (r : row) (i : Z) :
  exists v, column_value r i = Ok v /\ (in_bounds r i = false -> v = []).
Proof.
  unfold column_value, in_bounds.
  destruct ((0 <=? i)%Z && (i <? len_row r)%Z) eqn:E.
  - apply andb_true_iff in E. destruct E as [E1 E2].
    apply Z.leb_le in E1. apply Z.ltb_lt in E2. unfold len_row in E2.
    destruct (py_index_ok r i (conj E1 E2)) as (c & -> & _). simpl.
    eexists. split; [reflexivity|discriminate].
  - exists []. split; reflexivity.
Qed.

Lemma extract_row_data_fields (r : row) (col_indices : indices) :
  r <> [] ->
  exists article name quantity,
    column_value r (ix_article col_indices) = Ok article /\
    column_value r (ix_name col_indices) = Ok name /\
    column_value r (ix_quantity col_indices) = Ok quantity /\
    extract_row_data r col_indices =
    let d := row_fields r article name quantity in
    if truthy (Article d) || truthy (Name d) then Ok (Some d) else Ok None.
Proof.
  intros Hr. destruct r as [|c r]; [contradiction|].
  destruct (column_value_ok (c :: r) (ix_article col_indices)) as (a & Ha & _).
  destruct (column_value_ok (c :: r) (ix_name col_indices)) as (n & Hn & _).
  destruct (column_value_ok (c :: r) (ix_quantity col_indices)) as (q & Hq & _).
  exists a, n, q. repeat split; auto.
  unfold extract_row_data. rewrite Ha, Hn, Hq. reflexivity.
Qed.

Lemma extract_row_data_ok (r : row) (col_indices : indices) :
  exists o,
    extract_row_data r col_indices = Ok o /\
    forall d, o = Some d -> Article d <> [] \/ Name d <> [].
Proof.
  destruct r as [|c r].
  - exists None. split; [reflexivity|discriminate].
  - destruct (extract_row_data_fields (c :: r) col_indices)
      as (a & n & q & _ & _ & _ & ->); [discriminate|].
    cbv zeta.
    destruct (truthy (Article (row_fields (c :: r) a n q)) ||
              truthy (Name (row_fields (c :: r) a n q))) eqn:E.
    + eexists. split; [reflexivity|]. intros d [= <-].
      apply orb_true_iff in E. destruct E as [E|E]; [left|right];
        intros E'; rewrite E' in E; discriminate.
    + exists None. split; [reflexivity|discriminate].
Qed.

Lemma find_header_row_from_range (rows : table) :
  forall i, (0 <= i)%Z ->
    let h := find_header_row_from i rows in
    h = 0%Z \/ (i <= h < i + Z.of_nat (List.length rows))%Z.
Proof.
  induction rows as [|r rows IH]; intros i Hi; simpl; [left; reflexivity|].
  assert (Hrec : find_header_row_from (i + 1) rows = 0%Z \/
                 (i <= find_header_row_from (i + 1) rows
                  < i + Z.pos (Pos.of_succ_nat (List.length rows)))%Z).
  { destruct (IH (i + 1)%Z) as [H|H]; [lia|left; exact H|right; lia]. }
  destruct r as [|c r]; [exact Hrec|].
  destruct (2 <=? count_in table_header_words (header_text (c :: r)))%Z;
    [right; lia|exact Hrec].
Qed.

Lemma find_header_row_bound (t : table) :
  t <> [] -> (0 <= find_header_row t < len_table t)%Z.
Proof.
  intros Ht. unfold find_header_row, len_table.
  destruct (find_header_row_from_range t 0%Z) as [H|H]; [lia| |lia].
  rewrite H. destruct t; [contradiction|]. simpl. lia.
Qed.

Lemma table_loop_ok (t : table) (col_indices : indices) (idxs : list Z) :
  (forall i, In i idxs -> (0 <= i < len_table t)%Z) ->
  forall results,
    exists rs,
      for_each (table_step t col_indices) idxs results = Ok (results ++ rs) /\
      (List.length rs <= List.length idxs)%nat /\
      forall d, In d rs -> Article d <> [] \/ Name d <> [].
Proof.
  induction idxs as [|i idxs IH]; intros Hin results.
  - exists []. rewrite app_nil_r. simpl. split; [reflexivity|].
    split; [lia|intros d []].
  - assert (Hi : (0 <= i < len_table t)%Z) by (apply Hin; left; reflexivity).
    destruct (py_index_ok t i Hi) as (r & Hr & _).
    assert (Hrest : forall j, In j idxs -> (0 <= j < len_table t)%Z).
    { intros j Hj. apply Hin. right. exact Hj. }
    simpl. unfold table_step at 1. rewrite Hr. simpl.
    destruct (blank_row r).
    + simpl. destruct (IH Hrest results) as (rs & E & Hl & Hinv).
      exists rs. split; [exact E|]. split; [lia|exact Hinv].
    + destruct (extract_row_data_ok r col_indices) as (o & -> & Ho).
      simpl. destruct o as [d|]; simpl.
      * destruct (IH Hrest (results ++ [d])) as (rs & E & Hl & Hinv).
        exists (d :: rs). rewrite E, <- app_assoc. split; [reflexivity|].
        split; [simpl; lia|].
        intros d' [<-|Hd]; [apply Ho; reflexivity|apply Hinv; exact Hd].
      * destruct (IH Hrest results) as (rs & E & Hl & Hinv).
        exists rs. split; [exact E|]. split; [lia|exact Hinv].
Qed.

Lemma py_range_bounds (a b i : Z) :
  In i (py_range a b) -> (a <= i < b)%Z.
Proof.
  unfold py_range. rewrite in_map_iff. intros (k & <- & Hk).
  apply in_seq in Hk. lia.
Qed.

Lemma py_range_length (a b : Z) :
  List.length (py_range a b) = Z.to_nat (b - a).
Proof. unfold py_range. rewrite length_map, length_seq. reflexivity. Qed.

Lemma extract_from_table_ok (t : table) :
  exists rs,
    extract_from_table t = Ok rs /\
    (List.length rs <= List.length t - 1)%nat /\
    forall d, In d rs -> Article d <> [] \/ Name d <> [].
Proof.
  unfold extract_from_table. destruct t as [|r0 t'].
  - exists []. split; [reflexivity|]. split; [simpl; lia|intros d []].
  - destruct (len_table (r0 :: t') <? 2)%Z eqn:E.
    + exists []. split; [reflexivity|]. split; [simpl; lia|intros d []].
    + set (t := r0 :: t') in *.
      assert (Hh : (0 <= find_header_row t < len_table t)%Z)
        by (apply find_header_row_bound; discriminate).
      destruct (py_index_ok t _ Hh) as (header & -> & _). simpl.
      destruct (table_loop_ok t (find_column_indices header)
                  (py_range (find_header_row t + 1) (len_table t)))
        with (results := @nil record) as (rs & Hrs & Hl & Hinv).
      { intros i Hi. apply py_range_bounds in Hi. lia. }
      exists rs. split; [exact Hrs|]. split; [|exact Hinv].
      rewrite py_range_length in Hl. unfold len_table in *.
      subst t. simpl List.length in *. lia.
Qed.

(** ** The name residual keeps the letters of the line *)

Lemma solids_app (a b : str) : solids (a ++ b) = solids a ++ solids b.
Proof. apply filter_app. Qed.

Lemma solids_none (f : char -> bool) (s : str) :
  (forall c, f c = true -> solid c = false) ->
  forallb f s = true -> solids s = [].
Proof.
  intros Hf. induction s as [|c s IH]; intros H; [reflexivity|].
  simpl in *. apply andb_true_iff in H. destruct H as [Hc H].
  rewrite (Hf c Hc). apply IH, H.
Qed.

Lemma solids_rev (s : str) : solids (rev s) = rev (solids s).
Proof.
  induction s as [|c s IH]; [reflexivity|].
  simpl. rewrite solids_app, IH. simpl. destruct (solid c); simpl;
    [reflexivity|apply app_nil_r].
Qed.

Lemma solids_lstrip_by (f : char -> bool) (s : str) :
  (forall c, f c = true -> solid c = false) ->
  solids (lstrip_by f s) = solids s.
Proof.
  intros Hf. induction s as [|c s IH]; [reflexivity|].
  simpl. destruct (f c) eqn:E; [|reflexivity].
  rewrite IH, (Hf c E). reflexivity.
Qed.

Lemma solids_strip_by (f : char -> bool) (s : str) :
  (forall c, f c = true -> solid c = false) ->
  solids (strip_by f s) = solids s.
Proof.
  intros Hf. unfold strip_by, rstrip_by.
  rewrite solids_rev, (solids_lstrip_by f _ Hf), solids_rev, rev_involutive.
  apply solids_lstrip_by, Hf.
Qed.

Lemma space_not_solid (c : char) : isspace c = true -> solid c = false.
Proof. intros H. unfold solid. rewrite H. reflexivity. Qed.

Lemma decimal_not_solid (c : char) : isdecimal c = true -> solid c = false.
Proof. intros H. unfold solid. rewrite H. apply andb_false_iff. left. apply andb_false_r. Qed.

Lemma punct_not_solid (c : char) :
  existsb (N.eqb c) (u ".,;:-_|") = true -> solid c = false.
Proof. intros H. unfold solid. rewrite H. apply andb_false_r. Qed.

(** Dropping the rest of a match. *)
Lemma sub_from_skip (p : pattern) (repl : str) (a b : str) :
  forall prev,
    sub_from p repl (List.length a) prev (a ++ b) =
    sub_from p repl 0 (last_char prev a) b.
Proof.
  induction a as [|c a IH]; intros prev; [reflexivity|].
  simpl. apply IH.
Qed.

Lemma sub_spaces_solids (n : nat) :
  forall s prev,
    (List.length s <= n)%nat ->
    solids (sub_from spaces (u " ") 0 prev s) = solids s.
Proof.
  induction n as [|n IH]; intros s prev Hn.
  - destruct s; [reflexivity|simpl in Hn; lia].
  - destruct s as [|c s]; [reflexivity|].
    cbn [sub_from].
    destruct (match_at spaces prev (c :: s)) as [m|] eqn:E.
    + apply match_at_sound in E. destruct E as (rest & E & Hm).
      unfold spaces, plus in Hm.
      inversion Hm as [|f lo hi p0 prev0 seg m1 rest0 Hs Hlo _ Hm1| | |];
        subst; clear Hm.
      inversion Hm1; subst; clear Hm1. rewrite app_nil_r in *.
      destruct seg as [|x seg]; [simpl in Hlo; lia|].
      simpl in E. injection E as <- E. subst s.
      rewrite sub_from_skip. rewrite solids_app.
      change (solids (u " ")) with (@nil char). simpl app.
      rewrite IH by (simpl in Hn; rewrite length_app in Hn; lia).
      change (c :: seg ++ rest) with ((c :: seg) ++ rest).
      rewrite solids_app, (solids_none isspace (c :: seg) space_not_solid Hs).
      reflexivity.
    + simpl. rewrite IH by (simpl in Hn; lia). reflexivity.
Qed.

Lemma sub_row_number_later (s : str) :
  forall c, sub_from row_number [] 0 (Some c) s = s.
Proof.
  induction s as [|x s IH]; intros c; [reflexivity|].
  cbn [sub_from]. unfold row_number at 1. cbn [match_at at_start].
  f_equal. apply IH.
Qed.

Lemma last_char_some (m : str) :
  forall c, exists c', last_char (Some c) m = Some c'.
Proof.
  induction m as [|x m IH]; intros c; [exists c; reflexivity|].
  simpl. apply IH.
Qed.

Lemma row_number_not_solid (c : char) :
  some_class [isdecimal; isspace; lit (ch ".")] c = true -> solid c = false.
Proof.
  unfold some_class. simpl. intros H. split_orb H; try discriminate.
  - apply decimal_not_solid, H.
  - apply space_not_solid, H.
  - apply punct_not_solid. unfold lit in H. apply N.eqb_eq in H. subst c.
    reflexivity.
Qed.

Lemma sub_row_number_solids (s : str) :
  solids (re_sub row_number [] s) = solids s.
Proof.
  unfold re_sub. destruct s as [|c s].
  - cbn [sub_from]. destruct (match_at row_number None []) as [[|x m]|];
      reflexivity.
  - cbn [sub_from].
    destruct (match_at row_number None (c :: s)) as [m|] eqn:E.
    + pose proof E as E'. apply match_at_sound in E'.
      destruct E' as (rest & E' & Hm).
      pose proof (matches_classes _ _ _ _ Hm) as Hc.
      assert (Hsol : solids m = []).
      { apply (solids_none (some_class [isdecimal; isspace; lit (ch ".")])).
        - apply row_number_not_solid.
        - apply forallb_forall. intros x Hx.
          rewrite forallb_forall in Hc. specialize (Hc x Hx).
          unfold row_number in Hc. simpl in Hc. unfold some_class. simpl.
          split_orb Hc; try discriminate; rewrite Hc;
            rewrite ?orb_true_r; reflexivity. }
      destruct m as [|x m].
      * simpl. rewrite sub_row_number_later. reflexivity.
      * simpl in E'. injection E' as <- E'. subst s. simpl app.
        rewrite sub_from_skip.
        destruct (last_char_some m c) as (c' & ->).
        rewrite (sub_row_number_later rest).
        change (c :: m ++ rest) with ((c :: m) ++ rest).
        rewrite solids_app, Hsol. reflexivity.
    + simpl. rewrite sub_row_number_later. reflexivity.
Qed.

(** The name residual of a line from which nothing is removed keeps all
    its solid characters. *)
Lemma extract_name_plain (line : str) :
  (3 <= List.length (solids line))%nat ->
  exists name,
    extract_name line [] [] = name /\ solids name = solids line /\
    name <> [].
Proof.
  intros H. unfold extract_name. cbn [truthy].
  set (n1 := strip (re_sub spaces (u " ") line)).
  set (n2 := strip_chars (u ".,;:-_|") n1).
  set (n3 := re_sub row_number [] n2).
  assert (E : solids n3 = solids line).
  { unfold n3, n2, n1, strip, strip_chars.
    rewrite sub_row_number_solids.
    rewrite (solids_strip_by _ _ punct_not_solid).
    rewrite (solids_strip_by _ _ space_not_solid).
    unfold re_sub. apply (sub_spaces_solids (List.length line)). lia. }
  assert (L : (List.length (solids n3) <= List.length n3)%nat)
    by apply filter_length_le.
  rewrite E in L.
  replace (len n3 <? 3)%Z with false
    by (symmetry; apply Z.ltb_ge; unfold len; lia).
  exists n3. split; [reflexivity|]. split; [exact E|].
  intros En. rewrite En in L. simpl in L. lia.
Qed.

(** ** Lines with a product keyword *)

Lemma strip_prefix_app (p : str) :
  forall s r, strip_prefix p s = Some r -> s = p ++ r.
Proof.
  induction p as [|a p IH]; intros s r H.
  - injection H as ->. reflexivity.
  - destruct s as [|b s]; [discriminate|]. simpl in H.
    destruct (a =? b) eqn:E; [|discriminate].
    apply N.eqb_eq in E. subst b. rewrite (IH s r H). reflexivity.
Qed.

Lemma contains_app (sub s : str) :
  contains sub s = true -> exists a b, s = a ++ sub ++ b.
Proof.
  induction s as [|c s IH]; simpl.
  - destruct (strip_prefix sub []) as [r|] eqn:E; [|discriminate].
    intros _. apply strip_prefix_app in E. exists [], r. exact E.
  - destruct (strip_prefix sub (c :: s)) as [r|] eqn:E.
    + intros _. apply strip_prefix_app in E. exists [], r. exact E.
    + intros H. destruct (IH H) as (a & b & ->). exists (c :: a), b.
      reflexivity.
Qed.

Lemma high_not_punct (c : char) :
  128 <= c -> existsb (N.eqb c) (u ".,;:-_|") = false.
Proof.
  intros H. cbn.
  repeat (apply orb_false_iff; split); try reflexivity;
    apply N.eqb_neq; lia.
Qed.

Lemma lower_char_cyr (before : str) (c : char) (after : str) :
  (List.length (filter cyr (lower_char before c after))
   <= List.length (solids [c]))%nat.
Proof.
  unfold lower_char. destruct (c <? 128) eqn:E.
  - apply N.ltb_lt in E. cbn [filter].
    match goal with
    | |- context [cyr ?x] => assert (F : cyr x = false)
    end.
    { unfold cyr, between. apply andb_false_iff. left.
      apply N.leb_gt. destruct (upper_az c); lia. }
    rewrite F. cbn [List.length]. lia.
  - apply N.ltb_ge in E.
    destruct (filter cyr (uc_lower before c after)) as [|x xs] eqn:F;
      [simpl; lia|].
    assert (Hx : In x (filter cyr (uc_lower before c after)))
      by (rewrite F; left; reflexivity).
    apply filter_In in Hx. destruct Hx as [Hin Hc].
    destruct (uc_lower_cyrillic before c after x Hin Hc) as (El & Hs & Hd).
    rewrite El in F. simpl in F. rewrite Hc in F. injection F as <-.
    unfold solids. simpl. unfold solid, isspace, isdecimal.
    replace (c <? 128) with false by (symmetry; apply N.ltb_ge; exact E).
    rewrite Hs, Hd, (high_not_punct c E). simpl. lia.
Qed.

Lemma lower_from_cyr (s : str) :
  forall before,
    (List.length (filter cyr (lower_from before s))
     <= List.length (solids s))%nat.
Proof.
  induction s as [|c s IH]; intros before; [simpl; lia|].
  change (c :: s) with ([c] ++ s) at 2. rewrite solids_app.
  simpl lower_from. rewrite filter_app, !length_app.
  pose proof (lower_char_cyr before c s). pose proof (IH (c :: before)). lia.
Qed.

Lemma product_keywords_cyr (keyword : str) :
  In keyword product_keywords ->
  (4 <= List.length keyword)%nat /\ filter cyr keyword = keyword.
Proof.
  unfold product_keywords. simpl.
  intros H.
  repeat (destruct H as [<-|H]; [split; [vm_compute; lia|reflexivity]|]).
  destruct H.
Qed.

Lemma product_line_solids (line : str) :
  looks_like_product_line line = true ->
  (4 <= List.length (solids line))%nat.
Proof.
  unfold looks_like_product_line, any_in. intros H.
  apply existsb_exists in H. destruct H as (keyword & Hk & Hc).
  apply contains_app in Hc. destruct Hc as (a & b & E).
  destruct (product_keywords_cyr keyword Hk) as [Hl Hf].
  pose proof (lower_from_cyr line []) as L. fold (lower line) in L.
  rewrite E, !filter_app, !length_app, Hf in L. lia.
Qed.

(** C8, amended.  A line that contains a product keyword and no header
    keyword, and for which the Code Matcher and the Quantity Matcher (its
    patterns and its number at the end of the line) both return the empty
    string, still yields a record: exactly one, with an empty code, an
    empty quantity and a name that is not empty, the name residual of the
    trimmed line. *)
Theorem C8_product_line (line : str) :
  looks_like_product_line (strip line) = true ->
  any_in text_header_words (lower (strip line)) = false ->
  extract_article (strip line) = [] ->
  extract_quantity (strip line) = [] ->
  exists name,
    line_records line = [mk_record [] name []] /\
    name <> [] /\ name = extract_name (strip line) [] [].
Proof.
  intros Hp Hh Ha Hq.
  pose proof (product_line_solids _ Hp) as Hs.
  assert (Hl : (List.length (solids (strip line))
                <= List.length (strip line))%nat) by apply filter_length_le.
  destruct (extract_name_plain (strip line)) as (name & En & Sn & Hn); [lia|].
  assert (Ln : (List.length (solids name) <= List.length name)%nat)
    by apply filter_length_le.
  rewrite Sn in Ln.
  exists name. split; [|split; [exact Hn|symmetry; exact En]].
  unfold line_records, text_step. rewrite Hh, Ha, Hq, Hp, En.
  replace (len (strip line) <? 3)%Z with false
    by (symmetry; apply Z.ltb_ge; unfold len; lia).
  replace (2 <? len name)%Z with true
    by (symmetry; apply Z.ltb_lt; unfold len; lia).
  destruct (strip line) as [|c l]; [simpl in Hs; lia|].
  destruct name as [|x name]; [contradiction|]. reflexivity.
Qed.

(** ** The claims on both modes *)

(** C7.  In line mode a line of the text that is shorter than 3
    characters after trimming, or whose lower-case form contains a header
    keyword, yields no record, whatever else it contains: its records are
    none, and the records of the text are those of its lines.  (The loop
    trims the line before it lower-cases it.) *)
Theorem C7_skipped_lines (text line : str) :
  In line (split_lines text) ->
  (len (strip line) < 3)%Z \/
  any_in text_header_words (lower (strip line)) = true ->
  line_records line = [] /\
  (forall results, text_step results line = results) /\
  extract_from_text text = flat_map line_records (split_lines text).
Proof.
  intros _ H.
  assert (E : line_records line = []).
  { destruct H as [H|H];
      [apply line_records_short|apply line_records_header]; exact H. }
  split; [exact E|]. split; [|apply extract_from_text_lines].
  intros results. rewrite text_step_app, E. apply app_nil_r.
Qed.

(** C2, amended.  Every record that either mode returns has a code that
    is not empty or a name that is not empty, so that no record has the
    quantity as its only field; in line mode a record without a code has a
    name of at least 3 characters. *)
Theorem C2_emitted_records :
  (forall text r,
     In r (extract_from_text text) ->
     Article r <> [] \/ (Name r <> [] /\ (3 <= len (Name r))%Z)) /\
  (forall t rs r,
     extract_from_table t = Ok rs -> In r rs ->
     Article r <> [] \/ Name r <> []).
Proof.
  split.
  - intros text r Hr. rewrite extract_from_text_lines in Hr.
    apply in_flat_map in Hr. destruct Hr as (line & _ & Hr).
    apply line_records_invariant in Hr. destruct Hr as [Hr|Hr]; [left; exact Hr|].
    right. split; [|exact Hr]. intros E. rewrite E in Hr. unfold len in Hr. simpl in Hr. lia.
  - intros t rs r Ht Hr.
    destruct (extract_from_table_ok t) as (rs' & E & _ & Hinv).
    rewrite E in Ht. injection Ht as <-. apply Hinv. exact Hr.
Qed.

Lemma line_records_length (line : str) :
  (List.length (line_records line) <= 1)%nat.
Proof.
  unfold line_records, text_step.
  repeat match goal with
  | |- context [if ?b then _ else _] => destruct b
  end; simpl; lia.
Qed.

Lemma flat_map_line_records_length (lines : list str) :
  (List.length (flat_map line_records lines) <= List.length lines)%nat.
Proof.
  induction lines as [|l ls IH]; simpl; [lia|].
  rewrite length_app. pose proof (line_records_length l). lia.
Qed.

(** C9.  Both modes are total.  Line mode has no operation that can
    raise and returns at most one record for each line; table mode, whose
    indexing of the table and of the rows could raise [IndexError], never
    does, and returns at most one record for each row after the first.
    The empty text and the empty table give no record. *)
Theorem C9_total :
  (forall text,
     exists rs, extract_from_text text = rs /\
       (List.length rs <= List.length (split_lines text))%nat) /\
  (forall t,
     exists rs, extract_from_table t = Ok rs /\
       (List.length rs <= List.length t - 1)%nat) /\
  extract_from_text [] = [] /\
  extract_from_table [] = Ok [].
Proof.
  split; [|split; [|split; reflexivity]].
  - intros text. eexists. split; [reflexivity|].
    rewrite extract_from_text_lines. apply flat_map_line_records_length.
  - intros t. destruct (extract_from_table_ok t) as (rs & E & Hl & _).
    exists rs. split; assumption.
Qed.

(** C10.  A table of fewer than 2 rows, the empty table included, gives
    no record, whatever its row holds. *)
Theorem C10_short_table (t : table) :
  (len_table t < 2)%Z -> extract_from_table t = Ok [].
Proof.
  intros H. unfold extract_from_table. destruct t as [|r t]; [reflexivity|].
  replace (len_table (r :: t) <? 2)%Z with true
    by (symmetry; apply Z.ltb_lt; exact H).
  reflexivity.
Qed.

(** ** The header row *)

Lemma find_header_row_from_step (i : Z) (r : row) (rows : table) :
  find_header_row_from i (r :: rows) =
  if is_header_row r then i else find_header_row_from (i + 1) rows.
Proof.
  destruct r as [|c r]; [reflexivity|]. reflexivity.
Qed.

Lemma find_header_row_from_first (rows : table) :
  forall i k r,
    nth_error rows k = Some r -> is_header_row r = true ->
    (forall j r', (j < k)%nat -> nth_error rows j = Some r' ->
                  is_header_row r' = false) ->
    find_header_row_from i rows = (i + Z.of_nat k)%Z.
Proof.
  induction rows as [|r0 rows IH]; intros i k r Hk Hr Hbefore.
  - destruct k; discriminate.
  - rewrite find_header_row_from_step. destruct k as [|k].
    + injection Hk as ->. rewrite Hr. lia.
    + rewrite (Hbefore 0%nat r0) by (try lia; reflexivity).
      rewrite (IH (i + 1)%Z k r Hk Hr); [lia|].
      intros j r' Hj Hn. apply (Hbefore (S j) r'); [lia|exact Hn].
Qed.

Lemma find_header_row_from_none (rows : table) :
  forall i,
    (forall r, In r rows -> is_header_row r = false) ->
    find_header_row_from i rows = 0%Z.
Proof.
  induction rows as [|r0 rows IH]; intros i H; [reflexivity|].
  rewrite find_header_row_from_step, (H r0) by (left; reflexivity).
  apply IH. intros r Hr. apply H. right. exact Hr.
Qed.

(** C6.  In table mode the header row is the first row whose non-empty
    cells, lower-cased and joined, contain at least 2 of the header
    keywords; when no row does, it is row 0.  A table of 2 rows or more is
    read with the columns of that row. *)
Theorem C6_header_row (t : table) :
  (forall k r,
     nth_error t k = Some r -> is_header_row r = true ->
     (forall j r', (j < k)%nat -> nth_error t j = Some r' ->
                   is_header_row r' = false) ->
     find_header_row t = Z.of_nat k) /\
  ((forall r, In r t -> is_header_row r = false) ->
   find_header_row t = 0%Z) /\
  ((2 <= len_table t)%Z ->
   extract_from_table t =
   (header <- py_index t (find_header_row t) ;;
    for_each (table_step t (find_column_indices header))
      (py_range (find_header_row t + 1) (len_table t)) [])).
Proof.
  split; [|split].
  - intros k r Hk Hr Hb. unfold find_header_row.
    rewrite (find_header_row_from_first t 0%Z k r Hk Hr Hb). lia.
  - apply find_header_row_from_none.
  - intros H. unfold extract_from_table. destruct t as [|r t].
    + unfold len_table in H. simpl in H. lia.
    + replace (len_table (r :: t) <? 2)%Z with false
        by (symmetry; apply Z.ltb_ge; exact H).
      reflexivity.
Qed.

(** ** The fields of a table row *)

(** C3, amended.  In table mode, for a row that yields a record: a code
    role and a quantity role whose column index is unresolved or out of
    bounds are filled by the Code Matcher and the Quantity Matcher, run on
    the non-empty cells of the row joined by single spaces in column
    order; a name role whose index is unresolved or out of bounds is filled
    by the name residual of the same text only when the row has a code,
    which the residual removes, so that such a row without a code yields
    no record. *)
Theorem C3_row_fallback (r : row) (col_indices : indices) (d : record) :
  extract_row_data r col_indices = Ok (Some d) ->
  (in_bounds r (ix_article col_indices) = false ->
   Article d = extract_article (row_text r)) /\
  (in_bounds r (ix_quantity col_indices) = false ->
   Quantity d = extract_quantity (row_text r)) /\
  (in_bounds r (ix_name col_indices) = false ->
   Article d <> [] /\
   exists quantity,
     Name d = extract_name (row_text r) (Article d) quantity /\
     (quantity = [] \/ quantity = Quantity d)).
Proof.
  intros H. destruct r as [|c r]; [discriminate|].
  set (row := c :: r) in *.
  destruct (column_value_ok row (ix_article col_indices)) as (a & Ha & Ha').
  destruct (column_value_ok row (ix_name col_indices)) as (n & Hn & Hn').
  destruct (column_value_ok row (ix_quantity col_indices)) as (q & Hq & Hq').
  unfold in_bounds.
  destruct (extract_row_data_fields row col_indices)
    as (a0 & n0 & q0 & Ha0 & Hn0 & Hq0 & E); [discriminate|].
  rewrite Ha in Ha0. rewrite Hn in Hn0. rewrite Hq in Hq0.
  injection Ha0 as <-. injection Hn0 as <-. injection Hq0 as <-.
  rewrite E in H. cbv zeta in H.
  destruct (truthy (Article (row_fields row a n q)) ||
            truthy (Name (row_fields row a n q))) eqn:T; [|discriminate].
  injection H as <-. unfold row_fields in *. simpl in *.
  split; [|split].
  - intros B. rewrite (Ha' B). reflexivity.
  - intros B. rewrite (Hq' B). reflexivity.
  - intros B. rewrite (Hn' B) in *. simpl in *.
    set (a' := if negb (truthy a) then extract_article (row_text row) else a)
      in *.
    destruct (truthy a') eqn:Ta; simpl in T; [|discriminate].
    split; [intros Ea; rewrite Ea in Ta; discriminate|].
    exists q. split; [reflexivity|].
    destruct q as [|x q]; [left; reflexivity|right; reflexivity].
Qed.

(** * Further properties of the extractor *)

(** ** What a match must contain *)

Lemma filter_all {A : Type} (f : A -> bool) (l : list A) :
  forallb f l = true -> filter f l = l.
Proof.
  induction l as [|a l IH]; [reflexivity|]. simpl. intros H.
  apply andb_true_iff in H. destruct H as [-> H]. rewrite (IH H). reflexivity.
Qed.

(** A class that the pattern repeats [lo] times or more takes at least
    [lo] characters of every match. *)
Lemma matches_mandatory (p : pattern) (prev : option char) (m rest : str) :
  matches p prev m rest ->
  forall f lo hi, In (Cls f lo hi) p ->
    (lo <= List.length (filter f m))%nat.
Proof.
  induction 1 as [prev rest|f0 lo0 hi0 p prev seg m rest Hf Hlo Hhi Hm IH
                 |p m rest Hm IH|p prev m rest He Hm IH
                 |p prev m rest Hb Hm IH]; intros f lo hi Hin.
  - destruct Hin.
  - rewrite filter_app, length_app. destruct Hin as [E|Hin].
    + injection E as -> -> _. rewrite (filter_all f seg Hf). lia.
    + specialize (IH f lo hi Hin). lia.
  - destruct Hin as [E|Hin]; [discriminate|]. apply (IH f lo hi Hin).
  - destruct Hin as [E|Hin]; [discriminate|]. apply (IH f lo hi Hin).
  - destruct Hin as [E|Hin]; [discriminate|]. apply (IH f lo hi Hin).
Qed.

Lemma filter_none {A : Type} (f : A -> bool) (l : list A) :
  forallb (fun a => negb (f a)) l = true -> filter f l = [].
Proof.
  induction l as [|a l IH]; [reflexivity|]. simpl. intros H.
  apply andb_true_iff in H. destruct H as [Ha H].
  apply negb_true_iff in Ha. rewrite Ha. apply IH, H.
Qed.

(** A pattern with a class that must occur finds nothing in a text
    without a character of that class. *)
Lemma search_needs (p : pattern) (f : char -> bool) (lo : nat)
    (hi : option nat) (text : str) :
  In (Cls f lo hi) p -> (1 <= lo)%nat ->
  forallb (fun c => negb (f c)) text = true ->
  re_search p text = None.
Proof.
  intros Hin Hlo Hnone.
  destruct (re_search p text) as [m|] eqn:E; [|reflexivity].
  apply search_from_sound in E. destruct E as (pre & rest & -> & Hm).
  pose proof (matches_mandatory _ _ _ _ Hm f lo hi Hin) as L.
  rewrite !forallb_app in Hnone.
  apply andb_true_iff in Hnone. destruct Hnone as [_ Hnone].
  apply andb_true_iff in Hnone. destruct Hnone as [Hnone _].
  rewrite (filter_none f m Hnone) in L. simpl in L. lia.
Qed.

(** ** The shape of a code *)

Lemma extract_article_from_found (text : str) (patterns : list pattern) :
  extract_article_from patterns text <> [] ->
  exists p m,
    In p patterns /\ re_search p text = Some m /\
    extract_article_from patterns text = strip m /\
    valid_candidate (strip m) = true.
Proof.
  induction patterns as [|p ps IH]; simpl; [intros H; contradiction|].
  destruct (re_search p text) as [m|] eqn:E.
  - destruct (valid_candidate (strip m)) eqn:V.
    + intros _. exists p, m. auto.
    + intros H. destruct (IH H) as (q & m' & Hq & Hs & He & Hv).
      exists q, m'. auto.
  - intros H. destruct (IH H) as (q & m' & Hq & Hs & He & Hv).
    exists q, m'. auto.
Qed.

Lemma article_pattern_digits (p : pattern) :
  In p article_patterns ->
  exists lo hi, In (Cls isdecimal lo hi) p /\ (2 <= lo)%nat.
Proof.
  unfold article_patterns, rng, one, opt, star.
  intros [<-|[<-|[<-|[<-|[]]]]]; do 2 eexists; (split; [|shelve]);
    simpl; auto 6.
  Unshelve. all: lia.
Qed.

Lemma article_match_code_char (p : pattern) (c : char) :
  In p article_patterns -> existsb (accepts c) p = true -> code_char c = true.
Proof.
  unfold article_patterns, code_char, alnum_az, alpha_az.
  intros [<-|[<-|[<-|[<-|[]]]]]; cbn [existsb accepts rng one opt star plus];
    intros H;
    repeat match type of H with
    | _ || _ = true => apply orb_true_iff in H; destruct H as [H|H]
    end;
    try discriminate; rewrite H; rewrite ?orb_true_r; reflexivity.
Qed.

(** X1.  A code that [_extract_article] returns is a substring of the
    text of 3 characters or more, not purely numeric, made only of ASCII
    letters, digits, [-] and [_] (and the digits of [\d]), free of white
    space, and it holds at least 2 digits. *)
Theorem X1_article_shape (text : str) :
  extract_article text <> [] ->
  (exists pre post, text = pre ++ extract_article text ++ post) /\
  (3 <= len (extract_article text))%Z /\
  isdigit (extract_article text) = false /\
  forallb code_char (extract_article text) = true /\
  forallb (fun c => negb (isspace c)) (extract_article text) = true /\
  (2 <= List.length (filter isdecimal (extract_article text)))%nat.
Proof.
  intros H. unfold extract_article in *.
  destruct (extract_article_from_found text article_patterns H)
    as (p & m & Hp & Hs & -> & Hv).
  rewrite (article_match_strip p text m Hp Hs) in *.
  pose proof Hs as Hs'. apply search_from_sound in Hs'.
  destruct Hs' as (pre & post & E & Hm).
  pose proof (matches_classes _ _ _ _ Hm) as Hc.
  unfold valid_candidate in Hv. apply andb_true_iff in Hv.
  destruct Hv as [Hl Hd].
  split; [exists pre, post; exact E|].
  split; [apply Z.leb_le; exact Hl|].
  split; [apply negb_true_iff; exact Hd|].
  split; [|split].
  - apply forallb_forall. intros c Hin. rewrite forallb_forall in Hc.
    apply (article_match_code_char p c Hp (Hc c Hin)).
  - apply forallb_forall. intros c Hin. rewrite forallb_forall in Hc.
    apply negb_true_iff. apply (article_match_no_space p c Hp (Hc c Hin)).
  - destruct (article_pattern_digits p Hp) as (lo & hi & Hin & Hlo).
    pose proof (matches_mandatory _ _ _ _ Hm isdecimal lo hi Hin). lia.
Qed.

(** ** Texts without digits *)

Lemma extract_quantity_from_none (text : str) (patterns : list pattern) :
  (forall p, In p patterns -> re_search p text = None) ->
  extract_quantity_from patterns text = None.
Proof.
  induction patterns as [|p ps IH]; intros H; [reflexivity|].
  simpl. rewrite (H p (or_introl eq_refl)).
  apply IH. intros q Hq. apply H. right. exact Hq.
Qed.

Lemma quantity_pattern_digits (p : pattern) :
  In p quantity_patterns -> In (Cls isdecimal 1 None) p.
Proof.
  unfold quantity_patterns, number_sp, plus.
  intros [<-|[<-|[<-|[<-|[<-|[<-|[<-|[]]]]]]]]; left; reflexivity.
Qed.

Lemma forallb_lstrip_by (g f : char -> bool) (s : str) :
  forallb g s = true -> forallb g (lstrip_by f s) = true.
Proof.
  induction s as [|c s IH]; [reflexivity|]. intros H. simpl.
  destruct (f c); [|exact H].
  simpl in H. apply andb_true_iff in H. apply IH, H.
Qed.

Lemma forallb_strip_by (g f : char -> bool) (s : str) :
  forallb g s = true -> forallb g (strip_by f s) = true.
Proof.
  intros H. unfold strip_by, rstrip_by.
  rewrite forallb_rev. apply forallb_lstrip_by. rewrite forallb_rev.
  apply forallb_lstrip_by, H.
Qed.

(** X2.  A text without a decimal digit has no code and no quantity; in
    line mode a line without a digit yields a record only when it holds a
    product keyword, and that record has the name residual of the trimmed
    line as its only field. *)
Theorem X2_no_digit (text : str) :
  forallb (fun c => negb (isdecimal c)) text = true ->
  extract_article text = [] /\ extract_quantity text = [] /\
  forall r, In r (line_records text) ->
    looks_like_product_line (strip text) = true /\
    r = mk_record [] (extract_name (strip text) [] []) [].
Proof.
  assert (G : forall t, forallb (fun c => negb (isdecimal c)) t = true ->
              extract_article t = [] /\ extract_quantity t = []).
  { intros t H. split.
    - destruct (extract_article t) as [|c a] eqn:E; [reflexivity|].
      assert (Hne : extract_article t <> []) by (rewrite E; discriminate).
      destruct (extract_article_from_found t article_patterns Hne)
        as (p & m & Hp & Hs & _ & _).
      destruct (article_pattern_digits p Hp) as (lo & hi & Hin & Hlo).
      rewrite (search_needs p isdecimal lo hi t Hin) in Hs;
        [discriminate|lia|exact H].
    - unfold extract_quantity.
      rewrite extract_quantity_from_none.
      + rewrite (search_needs number_at_end isdecimal 1 None t);
          [reflexivity| |lia|exact H].
        unfold number_at_end, plus. right. left. reflexivity.
      + intros p Hp.
        apply (search_needs p isdecimal 1 None t);
          [apply quantity_pattern_digits; exact Hp|lia|exact H]. }
  intros H. destruct (G text H) as [Ha Hq].
  split; [exact Ha|]. split; [exact Hq|].
  intros r. unfold line_records, text_step.
  destruct (G (strip text)) as [Ha' Hq'];
    [apply forallb_strip_by; exact H|].
  rewrite Ha', Hq'. cbn [truthy orb].
  destruct (negb (truthy (strip text)) || (len (strip text) <? 3)%Z);
    [intros []|].
  destruct (any_in text_header_words (lower (strip text))); [intros []|].
  destruct (looks_like_product_line (strip text)); [|intros []].
  destruct (truthy (extract_name (strip text) [] []) &&
            (2 <? len (extract_name (strip text) [] []))%Z); [|intros []].
  intros [<-|[]]. split; reflexivity.
Qed.

(** ** Quantity patterns that never decide *)

Lemma last_char_app (prev : option char) (a b : str) :
  last_char prev (a ++ b) = last_char (last_char prev a) b.
Proof. unfold last_char. apply fold_left_app. Qed.

(** A match of [p ++ q] is a match of [p] followed by a match of [q]. *)
Lemma matches_split (p q : pattern) :
  forall prev m rest,
    matches (p ++ q) prev m rest ->
    exists m1 m2,
      m = m1 ++ m2 /\ matches p prev m1 (m2 ++ rest) /\
      matches q (last_char prev m1) m2 rest.
Proof.
  induction p as [|it p IH]; intros prev m rest H.
  - exists [], m. split; [reflexivity|]. split; [constructor|exact H].
  - simpl in H.
    inversion H as [|f lo hi p0 prev0 seg m0 rest0 Hf Hlo Hhi Hm
                   |p0 m0 rest0 Hm|p0 prev0 m0 rest0 He Hm
                   |p0 prev0 m0 rest0 Hb Hm]; subst; clear H;
      apply IH in Hm; destruct Hm as (m1 & m2 & -> & H1 & H2).
    + exists (seg ++ m1), m2. rewrite app_assoc. split; [reflexivity|].
      split; [constructor; assumption|]. rewrite last_char_app. exact H2.
    + exists m1, m2. split; [reflexivity|].
      split; [constructor; assumption|exact H2].
    + exists m1, m2. split; [reflexivity|].
      split; [|exact H2]. constructor; [|exact H1].
      rewrite app_assoc. exact He.
    + exists m1, m2. split; [reflexivity|].
      split; [|exact H2]. constructor; [|exact H1].
      rewrite app_assoc. exact Hb.
Qed.

Lemma matches_join (p q : pattern) :
  forall prev m1 m2 rest,
    matches p prev m1 (m2 ++ rest) ->
    matches q (last_char prev m1) m2 rest ->
    matches (p ++ q) prev (m1 ++ m2) rest.
Proof.
  induction p as [|it p IH]; intros prev m1 m2 rest H1 H2.
  - inversion H1; subst. exact H2.
  - inversion H1 as [|f lo hi p0 prev0 seg m0 rest0 Hf Hlo Hhi Hm
                    |p0 m0 rest0 Hm|p0 prev0 m0 rest0 He Hm
                    |p0 prev0 m0 rest0 Hb Hm]; subst; clear H1; simpl.
    + rewrite <- app_assoc. constructor; try assumption.
      apply IH; [exact Hm|]. rewrite <- last_char_app. exact H2.
    + constructor. apply IH; assumption.
    + constructor; [rewrite <- app_assoc; exact He|]. apply IH; assumption.
    + constructor; [rewrite <- app_assoc; exact Hb|]. apply IH; assumption.
Qed.

Lemma matches_le (p q : pattern) :
  pattern_le p q ->
  forall prev m rest, matches p prev m rest -> matches q prev m rest.
Proof.
  induction 1 as [|f g lo hi p q Hfg Hle IH|p q Hle IH|p q Hle IH|p q Hle IH];
    intros prev m rest H; inversion H; subst; constructor; auto.
  apply forallb_forall. intros c Hc.
  match goal with
  | Hf : forallb f _ = true |- _ =>
    rewrite forallb_forall in Hf; apply Hfg, Hf, Hc
  end.
Qed.

Lemma matches_opt_empty (f : char -> bool) (prev : option char) (rest : str) :
  matches [opt f] prev [] rest.
Proof.
  unfold opt. change (@nil char) with (@nil char ++ @nil char).
  constructor; simpl; try lia; try reflexivity. constructor.
Qed.

Lemma shadows_sht_shtuk :
  shadows (number_sp ++ lits_i "шт" ++ [opt (lit (ch "."))])
          (number_sp ++ lits_i "штук").
Proof.
  intros text H. destruct (re_search (number_sp ++ lits_i "штук") text)
    as [m|] eqn:E; [clear H|contradiction].
  apply search_from_sound in E. destruct E as (pre & rest & -> & Hm).
  change (number_sp ++ lits_i "штук")
    with ((number_sp ++ lits_i "шт") ++ lits_i "ук") in Hm.
  apply matches_split in Hm. destruct Hm as (m1 & m2 & -> & H1 & _).
  rewrite <- app_assoc. unfold re_search. apply search_from_complete.
  rewrite <- (app_nil_r m1). rewrite (app_assoc number_sp).
  apply matches_join; [rewrite app_nil_l; exact H1|].
  apply matches_opt_empty.
Qed.

Lemma shadows_set_kg :
  shadows (number_sp ++ [one (set_i (u "мкгт")); one (lit_i (ch "г"))])
          (number_sp ++ lits_i "кг").
Proof.
  intros text H. destruct (re_search (number_sp ++ lits_i "кг") text)
    as [m|] eqn:E; [clear H|contradiction].
  apply search_from_sound in E. destruct E as (pre & rest & -> & Hm).
  unfold re_search. apply search_from_complete.
  revert Hm. apply matches_le.
  unfold number_sp, plus, star, one. cbn.
  repeat constructor; auto.
  intros c Hc. unfold set_i. cbn. rewrite Hc. rewrite ?orb_true_r. reflexivity.
Qed.

Lemma extract_quantity_from_app (text : str) (ps qs : list pattern) :
  extract_quantity_from (ps ++ qs) text =
  match extract_quantity_from ps text with
  | Some q => Some q
  | None => extract_quantity_from qs text
  end.
Proof.
  induction ps as [|p ps IH]; [reflexivity|]. simpl.
  destruct (re_search p text); [reflexivity|exact IH].
Qed.

Lemma extract_quantity_from_tried (text : str) (ps : list pattern) :
  extract_quantity_from ps text = None ->
  forall p, In p ps -> re_search p text = None.
Proof.
  induction ps as [|p0 ps IH]; intros H p Hp; [destruct Hp|].
  simpl in H. destruct (re_search p0 text) eqn:E; [discriminate|].
  destruct Hp as [<-|Hp]; [exact E|apply IH; assumption].
Qed.

(** A pattern that stands behind one that shadows it can be left out. *)
Lemma extract_quantity_from_shadowed (text : str) (ps qs : list pattern)
    (p q : pattern) :
  In p ps -> shadows p q ->
  extract_quantity_from (ps ++ q :: qs) text =
  extract_quantity_from (ps ++ qs) text.
Proof.
  intros Hp Hs. rewrite !extract_quantity_from_app.
  destruct (extract_quantity_from ps text) eqn:E; [reflexivity|].
  simpl. destruct (re_search q text) eqn:Eq; [|reflexivity].
  exfalso. apply (Hs text); [rewrite Eq; discriminate|].
  apply (extract_quantity_from_tried text ps E p Hp).
Qed.

(** X3.  The quantity patterns [\d+\s*штук] and [\d+\s*кг] never decide
    the result: the pattern [\d+\s*шт\.?] matches wherever the first does
    and [\d+\s*[мкгт]г] wherever the second does, and both stand earlier
    in the list.  So ["100 штук"] is reported with the unit [шт]. *)
Theorem X3_shadowed_quantity_patterns (text : str) :
  extract_quantity_from quantity_patterns text =
  extract_quantity_from deciding_quantity_patterns text.
Proof.
  unfold quantity_patterns, deciding_quantity_patterns.
  match goal with
  | |- extract_quantity_from [?p1; ?p2; ?p3; ?p4; ?p5; ?p6; ?p7] _ = _ =>
    change [p1; p2; p3; p4; p5; p6; p7] with ([p1] ++ p2 :: [p3; p4; p5; p6; p7]);
    rewrite (extract_quantity_from_shadowed text [p1] _ p1 p2
               (or_introl eq_refl) shadows_sht_shtuk);
    change ([p1] ++ [p3; p4; p5; p6; p7])
      with ([p1; p3; p4; p5] ++ p6 :: [p7]);
    rewrite (extract_quantity_from_shadowed text [p1; p3; p4; p5] _ p4 p6
               (or_intror (or_intror (or_introl eq_refl))) shadows_set_kg)
  end.
  reflexivity.
Qed.

(** ** Texts and their lines *)

Lemma split_lines_acc_app (a b : str) :
  forall cur,
    split_lines_acc cur (a ++ 10 :: b) =
    split_lines_acc cur a ++ split_lines_acc [] b.
Proof.
  induction a as [|c a IH]; intros cur; simpl.
  - reflexivity.
  - destruct (c =? 10); [rewrite IH; reflexivity|apply IH].
Qed.

(** X4.  Line mode works line by line: the records of two texts joined
    by a line feed are the records of the first followed by those of the
    second. *)
Theorem X4_text_concat (a b : str) :
  extract_from_text (a ++ [10] ++ b) =
  extract_from_text a ++ extract_from_text b.
Proof.
  rewrite !extract_from_text_lines. unfold split_lines. simpl app.
  rewrite split_lines_acc_app. apply flat_map_app.
Qed.

Lemma lstrip_by_nil (f : char -> bool) (s : str) :
  forallb f s = true -> lstrip_by f s = [].
Proof.
  intros H. rewrite <- (app_nil_r s). rewrite lstrip_by_all by exact H.
  reflexivity.
Qed.

Lemma strip_by_nil (f : char -> bool) (s : str) :
  forallb f s = true -> strip_by f s = [].
Proof.
  intros H. unfold strip_by. rewrite lstrip_by_nil by exact H. reflexivity.
Qed.

Lemma lstrip_by_nil_inv (f : char -> bool) (s : str) :
  lstrip_by f s = [] -> forallb f s = true.
Proof.
  induction s as [|c s IH]; [reflexivity|]. simpl.
  destruct (f c); [exact IH|discriminate].
Qed.

Lemma strip_by_nil_inv (f : char -> bool) (s : str) :
  strip_by f s = [] -> forallb f s = true.
Proof.
  unfold strip_by, rstrip_by. intros H.
  apply (f_equal (@rev char)) in H. rewrite rev_involutive in H. simpl in H.
  apply lstrip_by_nil_inv in H. rewrite forallb_rev in H.
  destruct (forallb f s) eqn:E; [reflexivity|].
  (* the left strip of [s] is all [f]: so is [s] *)
  exfalso. revert H E. clear. induction s as [|c s IH]; [discriminate|].
  simpl. destruct (f c) eqn:F; simpl.
  - exact IH.
  - rewrite F. discriminate.
Qed.

Lemma split_lines_acc_chars (g : char -> bool) (s : str) :
  forall cur,
    forallb g cur = true -> forallb g s = true ->
    forallb (forallb g) (split_lines_acc cur s) = true.
Proof.
  induction s as [|c s IH]; intros cur Hc Hs; simpl.
  - rewrite forallb_rev, Hc. reflexivity.
  - simpl in Hs. apply andb_true_iff in Hs. destruct Hs as [Hx Hs].
    destruct (c =? 10); simpl.
    + rewrite forallb_rev, Hc. apply IH; [reflexivity|exact Hs].
    + apply IH; [simpl; rewrite Hx; exact Hc|exact Hs].
Qed.

Lemma blank_text_no_records (text : str) :
  forallb isspace text = true -> extract_from_text text = [].
Proof.
  intros H. rewrite extract_from_text_lines.
  pose proof (split_lines_acc_chars isspace text [] eq_refl H) as L.
  fold (split_lines text) in L.
  induction (split_lines text) as [|l ls IH]; [reflexivity|].
  simpl in L. apply andb_true_iff in L. destruct L as [Hl L].
  simpl. rewrite (IH L), app_nil_r.
  apply line_records_short. unfold strip.
  rewrite (strip_by_nil isspace l Hl). unfold len. simpl. lia.
Qed.

(** X5.  A text of white space only gives no record, so the test
    [if text.strip()] of [process_image] changes nothing: for every
    recognized text [process_image] returns the line-mode records of the
    text. *)
Theorem X5_process_image (text : str) :
  (forallb isspace text = true -> extract_from_text text = []) /\
  process_image text = extract_from_text text.
Proof.
  split; [apply blank_text_no_records|].
  unfold process_image. destruct (strip text) as [|c s] eqn:E; [|reflexivity].
  simpl. symmetry. apply blank_text_no_records.
  apply strip_by_nil_inv. exact E.
Qed.

(** ** White space around a line *)

Lemma lstrip_by_keep (f : char -> bool) (a b : str) :
  forallb f a = false -> lstrip_by f (a ++ b) = lstrip_by f a ++ b.
Proof.
  induction a as [|c a IH]; [discriminate|]. simpl.
  destruct (f c); [exact IH|reflexivity].
Qed.

Lemma strip_by_pad (f : char -> bool) (w1 s w2 : str) :
  forallb f w1 = true -> forallb f w2 = true ->
  strip_by f (w1 ++ s ++ w2) = strip_by f s.
Proof.
  intros H1 H2. unfold strip_by. rewrite lstrip_by_all by exact H1.
  destruct (forallb f s) eqn:E.
  - rewrite lstrip_by_all by exact E.
    rewrite (lstrip_by_nil f w2 H2), (lstrip_by_nil f s E). reflexivity.
  - rewrite lstrip_by_keep by exact E. apply rstrip_by_all. exact H2.
Qed.

(** X6.  White space before and after a line does not change what line
    mode makes of it. *)
Theorem X6_line_padding (results : list record) (w1 line w2 : str) :
  forallb isspace w1 = true -> forallb isspace w2 = true ->
  text_step results (w1 ++ line ++ w2) = text_step results line.
Proof.
  intros H1 H2. unfold text_step, strip.
  rewrite (strip_by_pad isspace w1 line w2 H1 H2). reflexivity.
Qed.

(** ** The column indices *)

Lemma find_column_indices_from_step (i : Z) (c : cell) (rest : row)
    (ix : indices) :
  find_column_indices_from i (c :: rest) ix =
  find_column_indices_from (i + 1) rest
    match header_role c with
    | Some RArticle => mk_indices i (ix_name ix) (ix_quantity ix)
    | Some RName => mk_indices (ix_article ix) i (ix_quantity ix)
    | Some RQuantity => mk_indices (ix_article ix) (ix_name ix) i
    | None => ix
    end.
Proof.
  cbn [find_column_indices_from]. unfold header_role. f_equal.
  destruct (negb (cell_truthy c)); [reflexivity|]. cbv zeta.
  repeat match goal with
  | |- context [if ?b then _ else _] => destruct b
  end; reflexivity.
Qed.

Lemma role_eq_dec (r r' : role) : {r = r'} + {r <> r'}.
Proof. decide equality. Qed.

Lemma option_role_dec (o : option role) (r : role) :
  {o = Some r} + {o <> Some r}.
Proof. decide equality. apply role_eq_dec. Qed.

Lemma find_column_indices_from_spec (r : role) (cells : row) :
  forall i ix,
    let res := index_of r (find_column_indices_from i cells ix) in
    (res = index_of r ix /\
     forall c, In c cells -> header_role c <> Some r) \/
    ((i <= res < i + Z.of_nat (List.length cells))%Z /\
     exists c,
       nth_error cells (Z.to_nat (res - i)) = Some c /\
       header_role c = Some r /\
       forall j c', (Z.to_nat (res - i) < j)%nat ->
                    nth_error cells j = Some c' -> header_role c' <> Some r).
Proof.
  induction cells as [|c rest IH]; intros i ix res.
  - left. split; [reflexivity|intros c []].
  - subst res. rewrite find_column_indices_from_step.
    match goal with
    | |- context [find_column_indices_from _ _ ?x] => set (ix' := x)
    end.
    destruct (IH (i + 1)%Z ix') as [[E Hno]|[Hb (c0 & Hn & Hr & Hlater)]].
    + rewrite E.
      destruct (option_role_dec (header_role c) r) as [Hc|Hc].
      * right.
        assert (Ei : index_of r ix' = i).
        { subst ix'. rewrite Hc. destruct r; reflexivity. }
        rewrite Ei. split; [simpl List.length; lia|].
        exists c. replace (i - i)%Z with 0%Z by lia.
        split; [reflexivity|]. split; [exact Hc|].
        intros j c' Hj Hn. destruct j as [|j]; [simpl in Hj; lia|].
        simpl in Hn. apply Hno. apply (nth_error_In _ _ Hn).
      * left.
        assert (Ei : index_of r ix' = index_of r ix).
        { subst ix'. destruct (header_role c) as [[]|]; destruct r;
            try reflexivity; contradiction Hc; reflexivity. }
        split; [exact Ei|].
        intros c' [<-|Hin]; [exact Hc|apply Hno; exact Hin].
    + right. split; [simpl List.length; lia|].
      exists c0.
      replace (Z.to_nat (index_of r (find_column_indices_from (i + 1) rest ix') - i))
        with (S (Z.to_nat (index_of r (find_column_indices_from (i + 1) rest ix')
                           - (i + 1)))) by lia.
      split; [exact Hn|]. split; [exact Hr|].
      intros j c' Hj Hn'. destruct j as [|j]; [lia|].
      simpl in Hn'. apply (Hlater j c'); [lia|exact Hn'].
Qed.

(** X7.  For each role, the index that [_find_column_indices] returns is
    either -1, when no cell of the header row has the role, or the index
    of the last cell that has it; a resolved index is an index of the
    header row, and two roles never share a column. *)
Theorem X7_column_indices (header_row : row) (r : role) :
  let i := index_of r (find_column_indices header_row) in
  ((i = -1)%Z /\ forall c, In c header_row -> header_role c <> Some r) \/
  ((0 <= i < len_row header_row)%Z /\
   (exists c,
      nth_error header_row (Z.to_nat i) = Some c /\
      header_role c = Some r /\
      forall j c', (Z.to_nat i < j)%nat ->
                   nth_error header_row j = Some c' ->
                   header_role c' <> Some r) /\
   forall r', r' <> r ->
     index_of r' (find_column_indices header_row) <> i).
Proof.
  intros i. subst i. unfold find_column_indices.
  destruct (find_column_indices_from_spec r header_row 0%Z
              (mk_indices (-1) (-1) (-1)))
    as [[E Hno]|[Hb (c & Hn & Hr & Hlater)]].
  - left. split; [rewrite E; destruct r; reflexivity|exact Hno].
  - right. rewrite Z.sub_0_r in *. unfold len_row.
    split; [lia|]. split; [exists c; auto|].
    intros r' Hr' E'.
    destruct (find_column_indices_from_spec r' header_row 0%Z
                (mk_indices (-1) (-1) (-1)))
      as [[E2 _]|[_ (c2 & Hn2 & Hr2 & _)]].
    + rewrite E2 in E'.
      assert (index_of r' (mk_indices (-1) (-1) (-1)) = (-1)%Z)
        by (destruct r'; reflexivity).
      lia.
    + rewrite Z.sub_0_r in Hn2. rewrite E' in Hn2. rewrite Hn in Hn2.
      injection Hn2 as <-. rewrite Hr in Hr2. injection Hr2 as <-.
      contradiction Hr'. reflexivity.
Qed.

(** ** Rows read from their columns *)

Lemma py_index_nth {A : Type} (l : list A) (i : Z) (d : A) :
  (0 <= i < Z.of_nat (List.length l))%Z ->
  py_index l i = Ok (nth (Z.to_nat i) l d).
Proof.
  intros H. destruct (py_index_ok l i H) as (a & -> & Hn).
  f_equal. symmetry. apply nth_error_nth. exact Hn.
Qed.

Lemma column_value_eq (r : row) (i : Z) :
  column_value r i = Ok (if in_bounds r i then cell_at r i else []).
Proof.
  unfold column_value, in_bounds, cell_at.
  destruct ((0 <=? i)%Z && (i <? len_row r)%Z) eqn:E; [|reflexivity].
  apply andb_true_iff in E. destruct E as [E1 E2].
  apply Z.leb_le in E1. apply Z.ltb_lt in E2. unfold len_row in E2.
  rewrite (py_index_nth r i None) by lia. reflexivity.
Qed.

(** X8.  When the three column indices are indices of the row and the
    three cells are not blank, the record of the row is the three cells,
    trimmed: no pattern is consulted. *)
Theorem X8_columns_verbatim (r : row) (col_indices : indices) :
  in_bounds r (ix_article col_indices) = true ->
  in_bounds r (ix_name col_indices) = true ->
  in_bounds r (ix_quantity col_indices) = true ->
  cell_at r (ix_article col_indices) <> [] ->
  cell_at r (ix_name col_indices) <> [] ->
  cell_at r (ix_quantity col_indices) <> [] ->
  extract_row_data r col_indices =
  Ok (Some (mk_record (cell_at r (ix_article col_indices))
                      (cell_at r (ix_name col_indices))
                      (cell_at r (ix_quantity col_indices)))).
Proof.
  intros Ba Bn Bq Ha Hn Hq.
  destruct r as [|c r].
  { unfold in_bounds, len_row in Ba. simpl in Ba.
    apply andb_true_iff in Ba. destruct Ba as [B1 B2].
    apply Z.leb_le in B1. apply Z.ltb_lt in B2. lia. }
  unfold extract_row_data. rewrite !column_value_eq, Ba, Bn, Bq.
  cbn [bind].
  destruct (cell_at (c :: r) (ix_article col_indices)); [contradiction|].
  destruct (cell_at (c :: r) (ix_name col_indices)); [contradiction|].
  destruct (cell_at (c :: r) (ix_quantity col_indices)); [contradiction|].
  reflexivity.
Qed.

(** ** The data rows of a table *)

Lemma py_range_step (a b : Z) :
  (a < b)%Z -> py_range a b = a :: py_range (a + 1) b.
Proof.
  intros H. unfold py_range.
  replace (Z.to_nat (b - a)) with (S (Z.to_nat (b - (a + 1)))) by lia.
  cbn [seq map]. f_equal; [lia|].
  rewrite <- seq_shift, map_map. apply map_ext. intros k. lia.
Qed.

Lemma py_range_empty (a b : Z) : (b <= a)%Z -> py_range a b = [].
Proof.
  intros H. unfold py_range.
  replace (Z.to_nat (b - a)) with O by lia. reflexivity.
Qed.

Lemma skipn_nth_error {A : Type} (l : list A) (n : nat) (a : A) :
  nth_error l n = Some a -> skipn n l = a :: skipn (S n) l.
Proof.
  revert l. induction n as [|n IH]; intros [|x l] H; try discriminate.
  - injection H as ->. reflexivity.
  - simpl in H. apply IH in H. exact H.
Qed.

Lemma table_step_row (t : table) (col_indices : indices)
    (results : list record) (i : Z) (r : row) :
  (0 <= i)%Z -> nth_error t (Z.to_nat i) = Some r ->
  table_step t col_indices results i =
  Ok (results ++ row_records col_indices r).
Proof.
  intros Hi Hn.
  assert (Hb : (0 <= i < len_table t)%Z).
  { unfold len_table. split; [exact Hi|].
    assert (Z.to_nat i < List.length t)%nat
      by (apply nth_error_Some; rewrite Hn; discriminate).
    lia. }
  destruct (py_index_ok t i Hb) as (r' & E & Hn'). rewrite Hn in Hn'.
  injection Hn' as <-.
  unfold table_step, row_records. rewrite E. cbn [bind].
  destruct (blank_row r); [rewrite app_nil_r; reflexivity|].
  destruct (extract_row_data_ok r col_indices) as (o & -> & _).
  cbn [bind]. destruct o; [reflexivity|rewrite app_nil_r; reflexivity].
Qed.

Lemma table_loop_rows (t : table) (col_indices : indices) (n : nat) :
  forall a results,
    (0 <= a)%Z -> (a + Z.of_nat n = len_table t)%Z ->
    for_each (table_step t col_indices) (py_range a (len_table t)) results =
    Ok (results ++ flat_map (row_records col_indices) (skipn (Z.to_nat a) t)).
Proof.
  induction n as [|n IH]; intros a results Ha Hn.
  - rewrite py_range_empty by lia.
    rewrite skipn_all2 by (unfold len_table in Hn; lia).
    simpl. rewrite app_nil_r. reflexivity.
  - rewrite py_range_step by lia. cbn [for_each].
    destruct (nth_error t (Z.to_nat a)) as [r|] eqn:E.
    + rewrite (table_step_row t col_indices results a r Ha E). cbn [bind].
      rewrite (IH (a + 1)%Z) by lia.
      rewrite (skipn_nth_error t _ r E). cbn [flat_map].
      replace (Z.to_nat (a + 1)) with (S (Z.to_nat a)) by lia.
      rewrite app_assoc. reflexivity.
    + apply nth_error_None in E. unfold len_table in Hn. lia.
Qed.

Lemma table_rows (t : table) :
  (2 <= len_table t)%Z ->
  exists header,
    nth_error t (Z.to_nat (find_header_row t)) = Some header /\
    extract_from_table t =
    Ok (flat_map (row_records (find_column_indices header))
                 (skipn (S (Z.to_nat (find_header_row t))) t)).
Proof.
  intros H.
  assert (Ht : t <> []) by (intros ->; unfold len_table in H; simpl in H; lia).
  pose proof (find_header_row_bound t Ht) as Hb.
  destruct (py_index_ok t _ Hb) as (header & E & Hn).
  exists header. split; [exact Hn|].
  unfold extract_from_table. destruct t as [|r0 t']; [contradiction|].
  replace (len_table (r0 :: t') <? 2)%Z with false
    by (symmetry; apply Z.ltb_ge; exact H).
  rewrite E. cbn [bind].
  rewrite (table_loop_rows (r0 :: t') _
             (Z.to_nat (len_table (r0 :: t') - (find_header_row (r0 :: t') + 1))))
    by lia.
  replace (Z.to_nat (find_header_row (r0 :: t') + 1))
    with (S (Z.to_nat (find_header_row (r0 :: t')))) by lia.
  reflexivity.
Qed.

(** X9.  Table mode works row by row: for a table of 2 rows or more the
    result is the concatenation, in the order of the rows, of the records
    of the rows below the header row, read with the column indices of the
    header row.  The header row and the rows above it give nothing. *)
Theorem X9_table_rows (t : table) :
  (2 <= len_table t)%Z ->
  exists header,
    nth_error t (Z.to_nat (find_header_row t)) = Some header /\
    extract_from_table t =
    Ok (flat_map (row_records (find_column_indices header))
                 (skipn (S (Z.to_nat (find_header_row t))) t)).
Proof. apply table_rows. Qed.

(** X10.  When no row of the table counts as a header row, the first row
    is taken for it: it only gives the column indices, and its own
    content is never returned as a record. *)
Theorem X10_first_row_lost (r0 : row) (rows : table) :
  rows <> [] ->
  (forall r, In r (r0 :: rows) -> is_header_row r = false) ->
  extract_from_table (r0 :: rows) =
  Ok (flat_map (row_records (find_column_indices r0)) rows).
Proof.
  intros Hne Hno.
  assert (E : find_header_row (r0 :: rows) = 0%Z)
    by (apply find_header_row_from_none; exact Hno).
  destruct (table_rows (r0 :: rows)) as (header & Hn & ->).
  - unfold len_table. destruct rows; [contradiction|]. simpl List.length. lia.
  - rewrite E in *. simpl in Hn. injection Hn as <-. reflexivity.
Qed.

(** ** The PDF processor *)

Lemma tables_loop_records (tables : list table) :
  forall results,
    tables_loop tables results =
    (results ++ flat_map table_records tables, false).
Proof.
  induction tables as [|t ts IH]; intros results; simpl.
  - rewrite app_nil_r. reflexivity.
  - unfold table_records at 1.
    destruct (extract_from_table_ok t) as (rs & -> & _).
    rewrite IH, app_assoc. reflexivity.
Qed.

Lemma pages_loop_step (p : page) (rest : list page) (results : list record)
    (tables : list table) (text : option str) :
  page_reads p tables text ->
  pages_loop (p :: rest) results =
  pages_loop rest (results ++ page_records tables text).
Proof.
  intros [Ht Hx]. simpl. rewrite Ht, tables_loop_records.
  destruct tables as [|t ts].
  - rewrite (Hx eq_refl). simpl. rewrite app_nil_r. reflexivity.
  - reflexivity.
Qed.

Lemma pages_loop_read (pages : list page) (rs : list record) :
  pages_read pages rs ->
  forall results after,
    (after = [] \/ exists p after', after = p :: after' /\
                                    page_tables p = Failed) ->
    pages_loop (pages ++ after) results = results ++ rs.
Proof.
  induction 1 as [|p rest tables text rs Hp Hr IH]; intros results after Ha.
  - simpl. rewrite app_nil_r.
    destruct Ha as [->|(p & after' & -> & Hf)]; [reflexivity|].
    simpl. rewrite Hf. reflexivity.
  - simpl app. rewrite (pages_loop_step p _ results tables text Hp).
    rewrite (IH _ after Ha), app_assoc. reflexivity.
Qed.

(** X11.  The extractor never ends the [try] block of [extract_data]:
    when the PDF library reads every page, the direct results are the
    records of the pages in order, those of the tables of a page, or of
    its text when it has no table; the OCR results are added behind them
    exactly when they are fewer than 3. *)
Theorem X11_extract_data (pages : list page) (rs : list record)
    (doc : outcome (list (outcome str))) :
  pages_read pages rs ->
  extract_data (Read pages) doc =
  if (Z.of_nat (List.length rs) <? 3)%Z
  then rs ++ extract_with_ocr doc else rs.
Proof.
  intros H. unfold extract_data.
  pose proof (pages_loop_read pages rs H [] [] (or_introl eq_refl)) as E.
  rewrite app_nil_r in E. rewrite E. reflexivity.
Qed.

(** X12.  A page that cannot be read ends the direct extraction: the
    records of the pages before it are kept, the pages after it are not
    looked at. *)
Theorem X12_failed_page (pages : list page) (rs : list record)
    (bad : page) (after : list page)
    (doc : outcome (list (outcome str))) :
  pages_read pages rs -> page_tables bad = Failed ->
  extract_data (Read (pages ++ bad :: after)) doc =
  if (Z.of_nat (List.length rs) <? 3)%Z
  then rs ++ extract_with_ocr doc else rs.
Proof.
  intros H Hb. unfold extract_data.
  rewrite (pages_loop_read pages rs H [] (bad :: after)).
  - reflexivity.
  - right. exists bad, after. split; [reflexivity|exact Hb].
Qed.

Lemma extract_from_text_named (text : str) :
  Forall has_code_or_name (extract_from_text text).
Proof.
  apply Forall_forall. intros r Hr. rewrite extract_from_text_lines in Hr.
  apply in_flat_map in Hr. destruct Hr as (line & _ & Hr).
  apply line_records_invariant in Hr. destruct Hr as [Hr|Hr]; [left; exact Hr|].
  right. intros E. rewrite E in Hr. unfold len in Hr. simpl in Hr. lia.
Qed.

Lemma tables_loop_named (tables : list table) :
  forall results,
    Forall has_code_or_name results ->
    Forall has_code_or_name (fst (tables_loop tables results)).
Proof.
  induction tables as [|t ts IH]; intros results H; simpl; [exact H|].
  destruct (extract_from_table_ok t) as (rs & -> & _ & Hrs).
  apply IH. apply Forall_app. split; [exact H|].
  apply Forall_forall. exact Hrs.
Qed.

Lemma pages_loop_named (pages : list page) :
  forall results,
    Forall has_code_or_name results ->
    Forall has_code_or_name (pages_loop pages results).
Proof.
  induction pages as [|p ps IH]; intros results H; simpl; [exact H|].
  destruct (page_tables p) as [tables|]; [|exact H].
  pose proof (tables_loop_named tables results H) as Ht.
  destruct (tables_loop tables results) as [results' raised]. simpl in Ht.
  destruct raised; [exact Ht|].
  destruct tables as [|t ts].
  - destruct (page_text p) as [text|]; [|exact Ht].
    apply IH. apply Forall_app. split; [exact Ht|].
    apply extract_from_text_named.
  - apply IH. exact Ht.
Qed.

Lemma ocr_loop_named (texts : list (outcome str)) :
  forall results,
    Forall has_code_or_name results ->
    Forall has_code_or_name (ocr_loop texts results).
Proof.
  induction texts as [|[text|] ts IH]; intros results H; simpl;
    [exact H| |exact H].
  apply IH. apply Forall_app. split; [exact H|].
  apply extract_from_text_named.
Qed.

(** X13.  Whatever the libraries read or fail to read, every record
    that [extract_data] returns has a code or a name. *)
Theorem X13_extract_data_records (pdf : outcome (list page))
    (doc : outcome (list (outcome str))) (r : record) :
  In r (extract_data pdf doc) -> Article r <> [] \/ Name r <> [].
Proof.
  intros Hr.
  assert (F : Forall has_code_or_name (extract_data pdf doc)).
  { unfold extract_data.
    assert (D : Forall has_code_or_name
                  match pdf with
                  | Read pages => pages_loop pages []
                  | Failed => []
                  end).
    { destruct pdf as [pages|]; [|constructor].
      apply pages_loop_named. constructor. }
    destruct (Z.of_nat _ <? 3)%Z; [|exact D].
    apply Forall_app. split; [exact D|].
    destruct doc as [texts|]; [|constructor].
    apply ocr_loop_named. constructor. }
  rewrite Forall_forall in F. apply (F r Hr).
Qed.

(** ** The width of a spreadsheet column *)

Lemma max_length_loop_spec (column : list str) :
  forall m,
    (m <= max_length_loop m column)%Z /\
    (forall v, In v column -> (len v <= max_length_loop m column)%Z) /\
    (max_length_loop m column = m \/
     exists v, In v column /\ max_length_loop m column = len v).
Proof.
  induction column as [|v rest IH]; intros m; simpl.
  - split; [lia|]. split; [intros v []|left; reflexivity].
  - destruct (IH (if (len v >? m)%Z then len v else m)) as (H1 & H2 & H3).
    destruct (len v >? m)%Z eqn:E.
    + apply Z.gtb_lt in E. split; [lia|]. split.
      * intros w [<-|Hw]; [exact H1|apply H2; exact Hw].
      * right. destruct H3 as [H3|(w & Hw & H3)].
        -- exists v. split; [left; reflexivity|exact H3].
        -- exists w. split; [right; exact Hw|exact H3].
    + assert (len v <= m)%Z.
      { destruct (Z.gtb_spec (len v) m); [discriminate|lia]. }
      split; [lia|]. split.
      * intros w [<-|Hw]; [lia|apply H2; exact Hw].
      * destruct H3 as [H3|(w & Hw & H3)]; [left; exact H3|].
        right. exists w. split; [right; exact Hw|exact H3].
Qed.

(** X14.  A column without cells raises [IndexError] at [column[0]] and
    is given no width.  For a column with cells the width that is set
    lies between 2 and 50; every cell of the column fits into it with 2
    characters to spare, unless the width is the cap of 50; and a width
    below the cap is 2 more than the longest cell. *)
Theorem X14_column_width (column : list str) :
  (column = [] -> adjusted_width column = Raise IndexError) /\
  (column <> [] ->
   exists w,
     adjusted_width column = Ok w /\
     (2 <= w <= 50)%Z /\
     (forall v, In v column -> (len v + 2 <= w)%Z \/ w = 50%Z) /\
     ((w < 50)%Z -> exists v, In v column /\ w = (len v + 2)%Z)).
Proof.
  split; [intros ->; reflexivity|].
  intros Hne. destruct column as [|v0 rest]; [contradiction|].
  exists (Z.min (max_length_loop 0 (v0 :: rest) + 2) 50).
  split; [reflexivity|].
  destruct (max_length_loop_spec (v0 :: rest) 0%Z) as (H1 & H2 & H3).
  split; [lia|]. split.
  - intros v Hv. specialize (H2 v Hv). lia.
  - intros Hlt. destruct H3 as [H3|(v & Hv & H3)].
    + exists v0. split; [left; reflexivity|].
      pose proof (H2 v0 (or_introl eq_refl)).
      assert (0 <= len v0)%Z by (unfold len; lia). lia.
    + exists v. split; [exact Hv|]. lia.
Qed.

(** ** The shape of a quantity *)

Lemma extract_quantity_from_found (text : str) (patterns : list pattern)
    (q : str) :
  extract_quantity_from patterns text = Some q ->
  exists p m, In p patterns /\ re_search p text = Some m /\ q = strip m.
Proof.
  induction patterns as [|p ps IH]; simpl; [discriminate|].
  destruct (re_search p text) as [m|] eqn:E.
  - intros [= <-]. exists p, m. auto.
  - intros H. destruct (IH H) as (p' & m' & Hp & Hs & Hq).
    exists p', m'. auto.
Qed.

Lemma quantity_match_first (p : pattern) (c : char) :
  In p quantity_patterns ->
  some_class (first_classes p) c = true -> isdecimal c = true.
Proof.
  unfold quantity_patterns.
  intros [<-|[<-|[<-|[<-|[<-|[<-|[<-|[]]]]]]]] H; cbn in H;
    split_orb H; try discriminate; exact H.
Qed.

(** X15.  A quantity that [_extract_quantity] returns starts with a
    decimal digit and has no white space at its ends; it is a substring of
    the text, or the number at the end of the text with [" шт"] behind
    it. *)
Theorem X15_quantity_shape (text : str) :
  extract_quantity text <> [] ->
  (exists d rest,
     extract_quantity text = d :: rest /\ isdecimal d = true) /\
  strip (extract_quantity text) = extract_quantity text /\
  ((exists pre post, text = pre ++ extract_quantity text ++ post) \/
   exists number,
     ends_with_number text number /\
     extract_quantity text = number ++ u " шт").
Proof.
  unfold extract_quantity.
  destruct (extract_quantity_from quantity_patterns text) as [q|] eqn:E.
  - intros _. apply extract_quantity_from_found in E.
    destruct E as (p & m & Hp & Hs & ->).
    rewrite (quantity_match_strip p text m Hp Hs).
    pose proof Hs as Hs'. apply search_from_sound in Hs'.
    destruct Hs' as (pre & post & E & Hm).
    split; [|split].
    + pose proof (matches_mandatory _ _ _ _ Hm isdecimal 1 None
                    (quantity_pattern_digits p Hp)) as L.
      destruct m as [|d rest]; [simpl in L; lia|].
      exists d, rest. split; [reflexivity|].
      apply (quantity_match_first p d Hp).
      apply (matches_first _ _ _ _ Hm d eq_refl).
    + apply (quantity_match_strip p text m Hp Hs).
    + left. exists pre, post. exact E.
  - destruct (re_search number_at_end text) as [m|] eqn:F;
      [|intros H; contradiction].
    intros _. destruct (number_at_end_sound text m F) as (number & Hn & ->).
    pose proof Hn as (pre & ws & _ & Hne & Hd & _ & _).
    split; [|split].
    + destruct number as [|d rest]; [contradiction|].
      exists d, (rest ++ u " шт"). split; [reflexivity|].
      simpl in Hd. apply andb_true_iff in Hd. apply Hd.
    + apply strip_by_id.
      * intros c Hc. apply isdecimal_not_space.
        destruct number as [|d rest]; [contradiction|].
        simpl in Hc. injection Hc as <-.
        simpl in Hd. apply andb_true_iff in Hd. apply Hd.
      * intros c Hc. rewrite rev_app_distr in Hc. simpl in Hc.
        injection Hc as <-.
        apply (lit_i_cyrillic_not_space 1090 1090); [reflexivity|].
        unfold lit_i. rewrite N.eqb_refl. reflexivity.
    + right. exists number. split; [exact Hn|reflexivity].
Qed.

(** ** White space in a name *)

Lemma sub_spaces_plain (n : nat) :
  forall s prev,
    (List.length s <= n)%nat ->
    forallb plain (sub_from spaces (u " ") 0 prev s) = true.
Proof.
  induction n as [|n IH]; intros s prev Hn.
  - destruct s; [reflexivity|simpl in Hn; lia].
  - destruct s as [|c s]; [reflexivity|].
    cbn [sub_from].
    destruct (match_at spaces prev (c :: s)) as [m|] eqn:E.
    + apply match_at_sound in E. destruct E as (rest & E & Hm).
      unfold spaces, plus in Hm.
      inversion Hm as [|f lo hi p0 prev0 seg m1 rest0 Hs Hlo _ Hm1| | |];
        subst; clear Hm.
      inversion Hm1; subst; clear Hm1. rewrite app_nil_r in *.
      destruct seg as [|x seg]; [simpl in Hlo; lia|].
      simpl in E. injection E as <- E. subst s.
      rewrite sub_from_skip. rewrite forallb_app.
      rewrite IH by (simpl in Hn; rewrite length_app in Hn; lia).
      reflexivity.
    + assert (Hc : isspace c = false).
      { destruct (isspace c) eqn:Hc; [|reflexivity]. exfalso.
        assert (M : matches spaces prev [c] s).
        { unfold spaces, plus. change [c] with ([c] ++ []).
          constructor; simpl; try lia; try exact I;
            [rewrite Hc; reflexivity|constructor]. }
        apply match_at_complete in M. simpl in M, E. rewrite E in M.
        contradiction. }
      cbn [forallb]. unfold plain at 1. rewrite Hc.
      rewrite IH by (simpl in Hn; lia). reflexivity.
Qed.

(** Removing the row number leaves an end of the text. *)
Lemma sub_row_number_suffix (s : str) :
  exists pre, s = pre ++ re_sub row_number [] s.
Proof.
  unfold re_sub. destruct s as [|c s].
  - exists []. cbn [sub_from].
    destruct (match_at row_number None []) as [[|x m]|]; reflexivity.
  - cbn [sub_from].
    destruct (match_at row_number None (c :: s)) as [m|] eqn:E.
    + apply match_at_sound in E. destruct E as (rest & E & _).
      destruct m as [|x m].
      * exists []. simpl. rewrite sub_row_number_later. reflexivity.
      * simpl in E. injection E as <- E. subst s. simpl app.
        rewrite sub_from_skip.
        destruct (last_char_some m c) as (c' & ->).
        rewrite (sub_row_number_later rest). exists (c :: m). reflexivity.
    + exists []. simpl. rewrite sub_row_number_later. reflexivity.
Qed.

(** X16.  A name that [_extract_name] returns is empty or has 3
    characters or more, and all its white space is plain spaces: it holds
    no tab and no line feed, whatever the text holds. *)
Theorem X16_name_spaces (text article quantity : str) :
  (extract_name text article quantity = [] \/
   (3 <= len (extract_name text article quantity))%Z) /\
  forall c, In c (extract_name text article quantity) ->
    isspace c = true -> c = 32.
Proof.
  unfold extract_name.
  set (name0 := (if truthy quantity then remove_all quantity
                   (if truthy article then remove_all article text else text)
                 else if truthy article then remove_all article text else text)).
  set (n1 := strip (re_sub spaces (u " ") name0)).
  set (n2 := strip_chars (u ".,;:-_|") n1).
  set (n3 := re_sub row_number [] n2).
  assert (P : forallb plain n3 = true).
  { destruct (sub_row_number_suffix n2) as (pre & E). fold n3 in E.
    assert (P2 : forallb plain n2 = true).
    { unfold n2, strip_chars, n1, strip.
      apply forallb_strip_by, forallb_strip_by.
      unfold re_sub. apply (sub_spaces_plain (List.length name0)). lia. }
    rewrite E, forallb_app in P2. apply andb_true_iff in P2. apply P2. }
  destruct (len n3 <? 3)%Z eqn:L.
  - split; [left; reflexivity|intros c []].
  - split; [right; apply Z.ltb_ge; exact L|].
    intros c Hc Hs. rewrite forallb_forall in P. specialize (P c Hc).
    unfold plain in P. rewrite Hs in P. simpl in P.
    apply N.eqb_eq. exact P.
Qed.

(** ** Counting codes *)

Lemma nodup_length_le {A : Type} (dec : forall a b : A, {a = b} + {a <> b})
    (l : list A) :
  (List.length (nodup dec l) <= List.length l)%nat.
Proof.
  induction l as [|a l IH]; simpl; [lia|].
  destruct (in_dec dec a l); simpl; lia.
Qed.

Lemma if_dec_iff {A : Type} (P Q : Prop) (d1 : {P} + {~ P})
    (d2 : {Q} + {~ Q}) (n m : A) :
  (P <-> Q) -> (if d1 then n else m) = (if d2 then n else m).
Proof. destruct d1, d2; intros H; try reflexivity; exfalso; tauto. Qed.

Lemma if_dec_true {A : Type} (P : Prop) (d : {P} + {~ P}) (n m : A) :
  P -> (if d then n else m) = n.
Proof. destruct d; intros H; [reflexivity|contradiction]. Qed.

Lemma nodup_empty_string (l : list str) :
  List.length (nodup str_eq_dec l) =
  (List.length (nodup str_eq_dec (filter truthy l)) +
   (if in_dec str_eq_dec [] l then 1 else 0))%nat.
Proof.
  induction l as [|x l IH]; [reflexivity|].
  destruct (truthy x) eqn:T.
  - assert (Hiff : In x l <-> In x (filter truthy l)).
    { rewrite filter_In. tauto. }
    rewrite (if_dec_iff _ _ (in_dec str_eq_dec [] (x :: l))
               (in_dec str_eq_dec [] l) 1%nat 0%nat).
    + cbn [nodup filter]. rewrite T. cbn [nodup].
      rewrite (if_dec_iff _ _ (in_dec str_eq_dec x l)
                 (in_dec str_eq_dec x (filter truthy l))
                 (nodup str_eq_dec l) (x :: nodup str_eq_dec l) Hiff).
      destruct (in_dec str_eq_dec x (filter truthy l)); simpl List.length; lia.
    + simpl. split; [intros [E|H]; [subst x; discriminate|exact H]|auto].
  - assert (Ex : x = []) by (destruct x; [reflexivity|discriminate]).
    subst x.
    match goal with
    | |- context [if ?d then 1%nat else 0%nat] =>
      rewrite (if_dec_true _ d 1%nat 0%nat) by (left; reflexivity)
    end.
    cbn [nodup filter truthy].
    destruct (in_dec str_eq_dec [] l) as [Hin|Hin];
      simpl List.length; lia.
Qed.

Lemma map_filter_article (df : list record) :
  map Article (filter (fun r => truthy (Article r)) df) =
  filter truthy (map Article df).
Proof.
  induction df as [|r df IH]; [reflexivity|]. simpl.
  destruct (truthy (Article r)); simpl; rewrite IH; reflexivity.
Qed.

(** X17.  The number of unique codes written to the statistics sheet
    counts the empty code as a code: it is the number shown on the page,
    which leaves records without a code out, plus 1 when some record has
    no code.  The number shown is at most the number of records with a
    code. *)
Theorem X17_unique_articles (df : list record) :
  sheet_unique_articles df =
  (shown_unique_articles df +
   (if existsb (fun r => negb (truthy (Article r))) df then 1 else 0))%Z /\
  (shown_unique_articles df <= rows_with_article df)%Z.
Proof.
  unfold sheet_unique_articles, shown_unique_articles, rows_with_article.
  split.
  - rewrite nodup_empty_string, map_filter_article.
    assert (E : (if in_dec str_eq_dec [] (map Article df) then 1 else 0)%nat =
                (if existsb (fun r => negb (truthy (Article r))) df
                 then 1 else 0)%nat).
    { destruct (in_dec str_eq_dec [] (map Article df)) as [H|H];
        destruct (existsb (fun r => negb (truthy (Article r))) df) eqn:X;
        try reflexivity; exfalso.
      - apply in_map_iff in H. destruct H as (r & Hr & Hin).
        assert (existsb (fun r => negb (truthy (Article r))) df = true).
        { apply existsb_exists. exists r. split; [exact Hin|].
          rewrite Hr. reflexivity. }
        congruence.
      - apply existsb_exists in X. destruct X as (r & Hin & Hr).
        apply H. apply in_map_iff. exists r. split; [|exact Hin].
        destruct (Article r); [reflexivity|discriminate]. }
    rewrite E.
    destruct (existsb (fun r => negb (truthy (Article r))) df); lia.
  - pose proof (nodup_length_le str_eq_dec
                  (map Article (filter (fun r => truthy (Article r)) df))) as L.
    rewrite length_map in L. lia.
Qed.

(** ** Reading a quantity again *)

(** A greedy class without upper bound takes a whole run that ends before
    a character outside the class. *)
Lemma rep_run (f : char -> bool) (k : option char -> str -> option str)
    (rest m2 : str) (seg : str) :
  forall lo prev,
    forallb f seg = true -> (lo <= List.length seg)%nat ->
    (forall c, hd_error rest = Some c -> f c = false) ->
    k (last_char prev seg) rest = Some m2 ->
    rep f k lo None prev (seg ++ rest) = Some (seg ++ m2).
Proof.
  induction seg as [|c seg IH]; intros lo prev Hf Hlo Hr Hk.
  - simpl in Hlo. assert (lo = O) by lia. subst lo. simpl in Hk. simpl app.
    destruct rest as [|x rest]; simpl; [exact Hk|].
    rewrite (Hr x eq_refl). simpl. exact Hk.
  - simpl in Hf. apply andb_true_iff in Hf. destruct Hf as [Hc Hf].
    simpl. rewrite Hc. simpl.
    rewrite (IH (pred lo) (Some c) Hf); [reflexivity| |exact Hr|exact Hk].
    simpl in Hlo. lia.
Qed.

Lemma search_sht (number : str) :
  number <> [] -> forallb isdecimal number = true ->
  re_search (number_sp ++ lits_i "шт" ++ [opt (lit (ch "."))])
    (number ++ u " шт") = Some (number ++ u " шт").
Proof.
  intros Hne Hd.
  assert (S1096 : isspace 1096 = false).
  { apply (lit_i_cyrillic_not_space 1096 1096); [reflexivity|].
    unfold lit_i. rewrite N.eqb_refl. reflexivity. }
  assert (M : match_at (number_sp ++ lits_i "шт" ++ [opt (lit (ch "."))])
                None (number ++ u " шт") = Some (number ++ u " шт")).
  { change (number_sp ++ lits_i "шт" ++ [opt (lit (ch "."))])
      with (Cls isdecimal 1 None ::
            Cls isspace 0 None ::
            lits_i "шт" ++ [opt (lit (ch "."))]).
    cbn [match_at].
    apply rep_run; [exact Hd| | |].
    - destruct number; [contradiction|simpl; lia].
    - intros c [= <-]. reflexivity.
    - change (u " шт") with ([32] ++ [1096; 1090]).
      apply rep_run; [reflexivity|simpl; lia| |].
      + intros c [= <-]. exact S1096.
      + cbn. rewrite andb_false_r. reflexivity. }
  unfold re_search.
  destruct number as [|d number]; [contradiction|].
  simpl app in *. cbn [search_from]. rewrite M. reflexivity.
Qed.

Lemma extract_quantity_sht (number : str) :
  number <> [] -> forallb isdecimal number = true ->
  extract_quantity (number ++ u " шт") = number ++ u " шт".
Proof.
  intros Hne Hd. unfold extract_quantity, quantity_patterns.
  cbn [extract_quantity_from]. rewrite (search_sht number Hne Hd).
  apply (quantity_match_strip
           (number_sp ++ lits_i "шт" ++ [opt (lit (ch "."))])
           (number ++ u " шт"));
    [left; reflexivity|apply search_sht; assumption].
Qed.

(** X18.  A quantity made by the fallback, the number at the end of the
    text with [" шт"] behind it, is read as itself: when no quantity
    pattern matches a text, extracting the quantity of its quantity gives
    the same quantity. *)
Theorem X18_fallback_reread (text : str) :
  first_matches quantity_patterns text = [] ->
  extract_quantity (extract_quantity text) = extract_quantity text.
Proof.
  intros H. unfold extract_quantity at 2 3.
  rewrite (extract_quantity_from_spec text quantity_patterns)
    by (intros p m; apply quantity_match_strip).
  rewrite H. cbn [hd_error].
  destruct (re_search number_at_end text) as [m|] eqn:E.
  - destruct (number_at_end_sound text m E)
      as (number & (pre & ws & _ & Hne & Hd & _ & _) & ->).
    apply extract_quantity_sht; assumption.
  - vm_compute. reflexivity.
Qed.

(** ** The OCR pass *)

Lemma ocr_loop_read (texts : list str) :
  forall results after,
    (after = [] \/ exists after', after = Failed :: after') ->
    ocr_loop (map Read texts ++ after) results =
    results ++ flat_map extract_from_text texts.
Proof.
  induction texts as [|text texts IH]; intros results after Ha.
  - simpl. rewrite app_nil_r.
    destruct Ha as [->|(after' & ->)]; reflexivity.
  - simpl. rewrite (IH _ after Ha), app_assoc. reflexivity.
Qed.

(** X19.  The OCR pass returns the line-mode records of the recognized
    pages in order; a page that cannot be recognized ends it, with the
    records of the pages before it kept and the pages after it not looked
    at. *)
Theorem X19_ocr_pass (texts : list str) (after : list (outcome str)) :
  extract_with_ocr (Read (map Read texts)) =
    flat_map extract_from_text texts /\
  extract_with_ocr (Read (map Read texts ++ Failed :: after)) =
    flat_map extract_from_text texts.
Proof.
  unfold extract_with_ocr. split.
  - rewrite <- (app_nil_r (map Read texts)).
    apply (ocr_loop_read texts [] []). left. reflexivity.
  - apply (ocr_loop_read texts [] (Failed :: after)).
    right. exists after. reflexivity.
Qed.

End Properties.

(** * Evaluations on Russian text *)

Lemma C7_skipped_lines_witness :
  line_records (u "Артикул A001-B 5 шт") = [] /\
  (forall results, text_step results (u "Артикул A001-B 5 шт") = results) /\
  extract_from_text (u "ab" ++ [10] ++ u "Артикул A001-B 5 шт") =
  flat_map line_records (split_lines (u "ab" ++ [10] ++ u "Артикул A001-B 5 шт")).
Proof.
  apply (C7_skipped_lines (u "ab" ++ [10] ++ u "Артикул A001-B 5 шт")).
  - vm_compute. right. left. reflexivity.
  - right. vm_compute. reflexivity.
Defined.

Lemma C2_emitted_records_witness :
  Article (mk_record [] (u "Болт без кода") []) <> [] \/
  (Name (mk_record [] (u "Болт без кода") []) <> [] /\
   (3 <= len (Name (mk_record [] (u "Болт без кода") [])))%Z).
Proof.
  apply (proj1 C2_emitted_records (u "Болт без кода")).
  vm_compute. left. reflexivity.
Defined.

(** C2 as stated fails in table mode, where a name of 1 or 2 characters
    read from the name column is emitted, and, read as a bound on the
    trimmed name, in line mode too. *)
Lemma C2_counterexample :
  (exists rs r,
     extract_from_table
       [[Some (u "Название"); Some (u "Код")]; [Some (u "ab"); None]] = Ok rs /\
     In r rs /\ ~ record_invariant r) /\
  (exists r,
     In r (extract_from_text (u "5 шт ab .")) /\ ~ record_invariant r).
Proof.
  split.
  - exists [mk_record [] (u "ab") []], (mk_record [] (u "ab") []).
    split; [vm_compute; reflexivity|]. split; [left; reflexivity|].
    intros [H|[_ H]]; [apply H; reflexivity|]. vm_compute in H. apply H. reflexivity.
  - exists (mk_record [] (u "ab ") (u "5 шт")).
    split; [vm_compute; left; reflexivity|].
    intros [H|[_ H]]; [apply H; reflexivity|]. vm_compute in H. apply H. reflexivity.
Qed.

Lemma C10_short_table_witness :
  extract_from_table [[Some (u "A001 Болт 5 шт")]] = Ok [].
Proof.
  apply (C10_short_table [[Some (u "A001 Болт 5 шт")]]).
  vm_compute. reflexivity.
Defined.

Lemma C6_header_row_witness :
  find_header_row
    [[Some (u "Склад 7")]; [Some (u "Код"); None; Some (u "Название")];
     [Some (u "A001"); None; Some (u "Болт")]] = 1%Z.
Proof.
  apply (proj1 (C6_header_row _) 1%nat [Some (u "Код"); None; Some (u "Название")]).
  - reflexivity.
  - vm_compute. reflexivity.
  - intros j r' Hj. destruct j as [|j]; [|lia].
    intros [= <-]. vm_compute. reflexivity.
Defined.

Lemma C3_row_fallback_witness :
  Article (mk_record (u "B152-ST") (u "Гайка") (u "7 кг")) =
    extract_article (row_text [Some (u "B152-ST Гайка"); Some (u "7 кг")]) /\
  Quantity (mk_record (u "B152-ST") (u "Гайка") (u "7 кг")) =
    extract_quantity (row_text [Some (u "B152-ST Гайка"); Some (u "7 кг")]).
Proof.
  destruct (C3_row_fallback [Some (u "B152-ST Гайка"); Some (u "7 кг")]
              (mk_indices (-1) (-1) 1)
              (mk_record (u "B152-ST") (u "Гайка") (u "7 кг")))
    as (Ha & _ & _).
  - vm_compute. reflexivity.
  - split; [apply Ha; reflexivity|vm_compute; reflexivity].
Defined.

(** C3 as stated fails: the name role of the row below is unresolved and
    the name residual of its text is not empty, yet the row is given no
    name and no record, because no code is found in it. *)
Lemma C3_counterexample :
  find_column_indices [Some (u "x")] = mk_indices (-1) (-1) (-1) /\
  in_bounds [Some (u "Болт большой")] (-1) = false /\
  Name (spec_row_fields [Some (u "Болт большой")] (mk_indices (-1) (-1) (-1)))
    = u "Болт большой" /\
  extract_row_data [Some (u "Болт большой")] (mk_indices (-1) (-1) (-1))
    = Ok None /\
  extract_from_table [[Some (u "x")]; [Some (u "Болт большой")]] = Ok [].
Proof. vm_compute. repeat split. Qed.

(** C1: what the code returns for the line of the claim.  The first code
    pattern matches ["A001-"], not ["A001-2024"]. *)
Theorem C1_line_example :
  extract_from_text (u "A001-2024 Болт крепёжный М8х40 50 шт") =
  [mk_record (u "A001-") (u "Болт крепёжный М8х40") (u "50 шт")] /\
  re_search (hd [] article_patterns)
    (u "A001-2024 Болт крепёжный М8х40 50 шт") = Some (u "A001-").
Proof. vm_compute. split; reflexivity. Qed.



Lemma C8_product_line_witness :
  exists name,
    line_records (u "Болт без кода") = [mk_record [] name []] /\
    name <> [] /\ name = extract_name (strip (u "Болт без кода")) [] [].
Proof.
  apply C8_product_line; vm_compute; reflexivity.
Defined.

(** The line of the claim gives the record the claim names. *)
Example C8_example :
  extract_from_text (u "Болт без кода") =
  [mk_record [] (u "Болт без кода") []].
Proof. vm_compute. reflexivity. Qed.

(** C8 as stated fails: both lines contain the product keyword and match
    no code pattern and no quantity pattern; the first yields no record,
    for it contains a header keyword, and the record of the second has a
    quantity, taken from the number at its end. *)
Lemma C8_counterexample :
  (looks_like_product_line (u "Болт товар") = true /\
   first_matches article_patterns (u "Болт товар") = [] /\
   first_matches quantity_patterns (u "Болт товар") = [] /\
   extract_from_text (u "Болт товар") = []) /\
  (looks_like_product_line (u "Болт 5") = true /\
   first_matches article_patterns (u "Болт 5") = [] /\
   first_matches quantity_patterns (u "Болт 5") = [] /\
   extract_from_text (u "Болт 5") = [mk_record [] (u "Болт 5") (u "5 шт")]).
Proof. vm_compute. repeat split. Qed.

(** ** Further properties, on Russian text *)

Lemma X1_article_shape_witness :
  (3 <= len (extract_article (u "B152-ST Гайка 7 кг")))%Z /\
  isdigit (extract_article (u "B152-ST Гайка 7 кг")) = false.
Proof.
  destruct (X1_article_shape (u "B152-ST Гайка 7 кг")) as (_ & Hl & Hd & _).
  - vm_compute. discriminate.
  - split; [exact Hl|exact Hd].
Defined.

Lemma X2_no_digit_witness :
  extract_article (u "Болт без кода") = [] /\
  extract_quantity (u "Болт без кода") = [].
Proof.
  destruct (X2_no_digit (u "Болт без кода")) as (Ha & Hq & _).
  - vm_compute. reflexivity.
  - split; [exact Ha|exact Hq].
Defined.

Lemma X6_line_padding_witness :
  text_step [] (u "   " ++ u "A001 Болт 5 шт" ++ [9; 13]) =
  text_step [] (u "A001 Болт 5 шт").
Proof.
  apply (X6_line_padding [] (u "   ") (u "A001 Болт 5 шт") [9; 13]).
  - vm_compute. reflexivity.
  - vm_compute. reflexivity.
Defined.

Lemma X8_columns_verbatim_witness :
  extract_row_data [Some (u " 7 "); Some (u "шт"); Some (u "Болт")]
                   (mk_indices 1 2 0) =
  Ok (Some (mk_record (u "шт") (u "Болт") (u "7"))).
Proof.
  refine (eq_trans
            (X8_columns_verbatim
               [Some (u " 7 "); Some (u "шт"); Some (u "Болт")]
               (mk_indices 1 2 0) _ _ _ _ _ _) _).
  - vm_compute. reflexivity.
  - vm_compute. reflexivity.
  - vm_compute. reflexivity.
  - vm_compute. discriminate.
  - vm_compute. discriminate.
  - vm_compute. discriminate.
  - vm_compute. reflexivity.
Defined.

Lemma X9_table_rows_witness :
  exists header,
    nth_error [[Some (u "Склад 7")]; [Some (u "Название"); Some (u "Код")];
               [Some (u "Болт"); Some (u "A001")]]
              (Z.to_nat
                 (find_header_row
                    [[Some (u "Склад 7")]; [Some (u "Название"); Some (u "Код")];
                     [Some (u "Болт"); Some (u "A001")]])) = Some header /\
    extract_from_table
      [[Some (u "Склад 7")]; [Some (u "Название"); Some (u "Код")];
       [Some (u "Болт"); Some (u "A001")]] =
    Ok (flat_map (row_records (find_column_indices header))
          (skipn (S (Z.to_nat
                       (find_header_row
                          [[Some (u "Склад 7")];
                           [Some (u "Название"); Some (u "Код")];
                           [Some (u "Болт"); Some (u "A001")]])))
             [[Some (u "Склад 7")]; [Some (u "Название"); Some (u "Код")];
              [Some (u "Болт"); Some (u "A001")]])).
Proof.
  apply (X9_table_rows
           [[Some (u "Склад 7")]; [Some (u "Название"); Some (u "Код")];
            [Some (u "Болт"); Some (u "A001")]]).
  vm_compute. discriminate.
Defined.

Lemma X10_first_row_lost_witness :
  extract_from_table
    [[Some (u "A001 Болт 5 шт")]; [Some (u "B200 Гайка 7 шт")]] =
  Ok (flat_map (row_records (find_column_indices [Some (u "A001 Болт 5 шт")]))
               [[Some (u "B200 Гайка 7 шт")]]).
Proof.
  apply (X10_first_row_lost [Some (u "A001 Болт 5 шт")]
                            [[Some (u "B200 Гайка 7 шт")]]).
  - discriminate.
  - intros r [<-|[<-|[]]]; vm_compute; reflexivity.
Defined.

Lemma X11_extract_data_witness :
  extract_data
    (Read [mk_page (Read []) (Read (Some (u "A001 Болт 5 шт")))])
    (Read [Read (u "B200 Гайка 7 шт")]) =
  if (Z.of_nat
        (List.length
           (page_records [] (Some (u "A001 Болт 5 шт")) ++ [])) <? 3)%Z
  then (page_records [] (Some (u "A001 Болт 5 шт")) ++ []) ++
       extract_with_ocr (Read [Read (u "B200 Гайка 7 шт")])
  else page_records [] (Some (u "A001 Болт 5 шт")) ++ [].
Proof.
  apply (X11_extract_data
           [mk_page (Read []) (Read (Some (u "A001 Болт 5 шт")))]
           (page_records [] (Some (u "A001 Болт 5 шт")) ++ [])
           (Read [Read (u "B200 Гайка 7 шт")])).
  apply Pages_cons.
  - split; [reflexivity|intros _; reflexivity].
  - apply Pages_nil.
Defined.

Lemma X12_failed_page_witness :
  extract_data
    (Read ([mk_page (Read []) (Read (Some (u "A001 Болт 5 шт")))] ++
           mk_page Failed (Read (Some (u "C300 Шайба 2 шт"))) ::
           [mk_page (Read []) (Read (Some (u "D400 Винт 9 шт")))]))
    Failed =
  if (Z.of_nat
        (List.length
           (page_records [] (Some (u "A001 Болт 5 шт")) ++ [])) <? 3)%Z
  then (page_records [] (Some (u "A001 Болт 5 шт")) ++ []) ++
       extract_with_ocr Failed
  else page_records [] (Some (u "A001 Болт 5 шт")) ++ [].
Proof.
  apply (X12_failed_page
           [mk_page (Read []) (Read (Some (u "A001 Болт 5 шт")))]
           (page_records [] (Some (u "A001 Болт 5 шт")) ++ [])
           (mk_page Failed (Read (Some (u "C300 Шайба 2 шт"))))
           [mk_page (Read []) (Read (Some (u "D400 Винт 9 шт")))]
           Failed).
  - apply Pages_cons.
    + split; [reflexivity|intros _; reflexivity].
    + apply Pages_nil.
  - reflexivity.
Defined.

Lemma X13_extract_data_records_witness :
  Article (mk_record (u "A001") (u "Болт") (u "5 шт")) <> [] \/
  Name (mk_record (u "A001") (u "Болт") (u "5 шт")) <> [].
Proof.
  apply (X13_extract_data_records
           (Read [mk_page (Read []) (Read (Some (u "A001 Болт 5 шт")))])
           Failed).
  vm_compute. left. reflexivity.
Defined.

Lemma X15_quantity_shape_witness :
  strip (extract_quantity (u "Болт M8 12")) = extract_quantity (u "Болт M8 12").
Proof.
  destruct (X15_quantity_shape (u "Болт M8 12")) as (_ & Hs & _).
  - vm_compute. discriminate.
  - exact Hs.
Defined.

Lemma X18_fallback_reread_witness :
  extract_quantity (extract_quantity (u "Болт M8 12")) =
  extract_quantity (u "Болт M8 12").
Proof.
  apply (X18_fallback_reread (u "Болт M8 12")).
  vm_compute. reflexivity.
Defined.

(** ** The Code Matcher and the column width, on Russian text *)

Lemma C4_code_matcher_witness :
  code_matcher_spec article_patterns (u "Гайка B152-ST 7 кг") (u "B152-ST").
Proof.
  apply (proj1 (proj1 C4_code_matcher (u "Гайка B152-ST 7 кг") (u "B152-ST"))).
  vm_compute. reflexivity.
Defined.

(** A line can hold a substring that matches a code pattern and passes
    the filter, and still get no code: in ["2024 a12-x Болт"] the first
    pattern matches [a12-x], but its first match is the year, which is
    filtered out, and no other pattern matches. *)
Lemma C4_counterexample :
  unfiltered_match (u "2024 a12-x Болт") (u "a12-x") /\
  first_matches article_patterns (u "2024 a12-x Болт") = [u "2024"] /\
  extract_article (u "2024 a12-x Болт") = [].
Proof.
  split; [|split; vm_compute; reflexivity].
  exists [rng alnum_az 1 3; opt dash_us; rng isdecimal 2 4; opt dash_us;
          rng alpha_az 0 5], (u "2024 "), (u " Болт").
  split; [left; reflexivity|]. split; [vm_compute; reflexivity|].
  split; [|vm_compute; reflexivity].
  assert (E : match_at [rng alnum_az 1 3; opt dash_us; rng isdecimal 2 4;
                        opt dash_us; rng alpha_az 0 5]
                       (last_char None (u "2024 ")) (u "a12-x Болт") =
              Some (u "a12-x")) by (vm_compute; reflexivity).
  apply match_at_sound in E. destruct E as (rest & E & Hm).
  change (u "a12-x Болт") with (u "a12-x" ++ u " Болт") in E.
  apply app_inv_head in E. subst rest. exact Hm.
Qed.

Lemma X14_column_width_witness :
  exists w,
    adjusted_width [u "Артикул"; u "A001"; u "B152-ST"] = Ok w /\
    (2 <= w <= 50)%Z /\
    (forall v, In v [u "Артикул"; u "A001"; u "B152-ST"] ->
               (len v + 2 <= w)%Z \/ w = 50%Z) /\
    ((w < 50)%Z ->
     exists v, In v [u "Артикул"; u "A001"; u "B152-ST"] /\
               w = (len v + 2)%Z).
Proof.
  apply (proj2 (X14_column_width [u "Артикул"; u "A001"; u "B152-ST"])).
  discriminate.
Defined.
